(** * txflow: the source-level call tracer (tracer.go)

    A shallow embedding of [tracer.go]: the frame stack, the tracer's
    callbacks ([CaptureStart], [CaptureState], [CaptureFault],
    [CaptureEnd]), the source-map lookups and the two parameter decoders,
    followed by the properties of the tracer's state machine.

    Conventions.
    - Go's fixed-width integers are [Z] with the wrap-around written out
      ([wrap_uint64], [wrap_int64]).
    - A Go panic is an explicit result: [None] in pure helpers, [Panicked]
      in the callbacks.  A deferred function runs on both exits.
    - Code that lives outside [tracer.go] (the AST queries, the source-map
      parser, the instruction index, go-ethereum's address formatting and
      memory view, the regexp engine) is a parameter of [Section Tracer]. *)

From Stdlib Require Import ZArith Ascii String DecimalString.
From stdpp Require Import gmap strings list.

Local Open Scope Z_scope.

(** ** Fixed-width integers *)

Definition wrap_uint64 (x : Z) : Z := x mod 2 ^ 64.

Definition wrap_int64 (x : Z) : Z := (x + 2 ^ 63) mod 2 ^ 64 - 2 ^ 63.

Definition max_int64 : Z := 2 ^ 63 - 1.
Definition min_int64 : Z := - 2 ^ 63.

Definition in_int64 (x : Z) : bool := (min_int64 <=? x) && (x <=? max_int64).

(** ** The Go library calls the tracer makes *)

Module Go.

(** A byte slice: [elems] are the [len] visible bytes, [spare] the rest of
    the backing array up to [cap].  A slice expression may reach into
    [spare]; it panics only beyond [cap]. *)
Record bytes := mkBytes { elems : list Byte.byte; spare : list Byte.byte }.

Definition len (b : bytes) : Z := Z.of_nat (length (elems b)).
Definition cap (b : bytes) : Z := Z.of_nat (length (elems b) + length (spare b)).

(** [b[lo:hi]]. *)
Definition slice (b : bytes) (lo hi : Z) : option bytes :=
  if (0 <=? lo) && (lo <=? hi) && (hi <=? cap b) then
    let arr := drop (Z.to_nat lo) (elems b ++ spare b) in
    Some (mkBytes (take (Z.to_nat (hi - lo)) arr) (drop (Z.to_nat (hi - lo)) arr))
  else None.

(** [s[lo:hi]] on a string. *)
Definition substr (s : string) (lo hi : Z) : option string :=
  if (0 <=? lo) && (lo <=? hi) && (hi <=? Z.of_nat (String.length s)) then
    Some (String.substring (Z.to_nat lo) (Z.to_nat (hi - lo)) s)
  else None.

(** [big.Int.SetBytes]: the bytes as a big-endian unsigned integer. *)
Definition SetBytes (bs : list Byte.byte) : Z :=
  fold_left (fun acc b => 256 * acc + Z.of_N (Byte.to_N b)) bs 0.

(** [big.Int.String] and [strconv.Itoa]: decimal, with a leading minus
    sign for a negative number. *)
Definition decimal (x : Z) : string := NilZero.string_of_int (Z.to_int x).

Definition Itoa (x : Z) : string := decimal x.

(** [big.Int.Int64]: the low 64 bits of the magnitude, negated for a
    negative number. *)
Definition Int64 (x : Z) : Z :=
  let v := wrap_int64 (Z.abs x) in
  if x <? 0 then wrap_int64 (- v) else v.

Definition digit (c : ascii) : option Z :=
  let n := Z.of_N (N_of_ascii c) in
  if (48 <=? n) && (n <=? 57) then Some (n - 48) else None.

Fixpoint digits (s : string) (acc : Z) : option Z :=
  match s with
  | EmptyString => Some acc
  | String c r => d ← digit c; digits r (10 * acc + d)
  end.

(** [strconv.Atoi]: the value and whether [err == nil].  The input is an
    optional sign and at least one decimal digit; a syntax error gives 0,
    a value outside [int] gives the nearest bound. *)
Definition Atoi (s : string) : Z * bool :=
  let '(neg, body) :=
    match s with
    | String "-"%char r => (true, r)
    | String "+"%char r => (false, r)
    | _ => (false, s)
    end in
  match body with
  | EmptyString => (0, false)
  | _ =>
      match digits body 0 with
      | None => (0, false)
      | Some n =>
          let v := if neg : bool then - n else n in
          if in_int64 v then (v, true)
          else (if neg then min_int64 else max_int64, false)
      end
  end.

(** [strings.Split(s, sep)] for a one-byte separator. *)
Fixpoint Split (s : string) (sep : ascii) : list string :=
  match s with
  | EmptyString => [EmptyString]
  | String c r =>
      if Ascii.eqb c sep then EmptyString :: Split r sep
      else match Split r sep with
           | p :: ps => String c p :: ps
           | [] => [String c EmptyString]
           end
  end.

(** [strings.ToLower] on the ASCII letters (the tracer applies it to
    hexadecimal address strings only). *)
Definition lower (c : ascii) : ascii :=
  let n := N_of_ascii c in
  if ((65 <=? n) && (n <=? 90))%N then ascii_of_N (n + 32) else c.

Fixpoint ToLower (s : string) : string :=
  match s with
  | EmptyString => EmptyString
  | String c r => String (lower c) (ToLower r)
  end.

Definition hexdigit (n : N) : ascii :=
  if (n <? 10)%N then ascii_of_N (48 + n) else ascii_of_N (87 + n).

(** [fmt.Sprintf("%x", bs)]: two lower-case hexadecimal digits a byte. *)
Fixpoint hex (bs : list Byte.byte) : string :=
  match bs with
  | [] => EmptyString
  | b :: r =>
      let n := Byte.to_N b in
      String (hexdigit (n / 16)) (String (hexdigit (n mod 16)) (hex r))
  end.

(** [strings.HasPrefix]. *)
Definition HasPrefix (s p : string) : bool := String.prefix p s.

End Go.

(** ** go-ethereum's values *)

(** [vm.OpCode] is a byte; these are the opcodes [CaptureState] names. *)
Module Op.
Definition STOP : Z := 0x00.
Definition JUMP : Z := 0x56.
Definition JUMPI : Z := 0x57.
Definition JUMPDEST : Z := 0x5b.
Definition CALL : Z := 0xf1.
Definition CALLCODE : Z := 0xf2.
Definition RETURN : Z := 0xf3.
Definition DELEGATECALL : Z := 0xf4.
Definition STATICCALL : Z := 0xfa.
Definition REVERT : Z := 0xfd.
Definition SELFDESTRUCT : Z := 0xff.
End Op.

Definition InvalidOpcode : Z := 0xfe.

(** A [common.Address] is a 160-bit number. *)
Definition BigToAddress (x : Z) : Z := Z.abs x mod 2 ^ 160.
Definition BytesToAddress (bs : list Byte.byte) : Z := Go.SetBytes bs mod 2 ^ 160.

(** [vm.Contract]: what the tracer reads of it. *)
Module VMContract.
Record t := mk { Address : Z; Code : list Byte.byte }.
End VMContract.

(** [vm.Stack]: [data] grows upwards, [Back n] is the n-th word from the
    top, and indexing past the bottom panics. *)
Definition Back (data : list Z) (n : nat) : option Z :=
  let i := Z.of_nat (length data) - Z.of_nat n - 1 in
  if 0 <=? i then data !! Z.to_nat i else None.

(** ** The data of the tracer *)

Module CallFrame.
Record t := mk {
  Contract : string;
  Instruction : Z;
  Source : string;
  Line : Z;
  PC : Z;
  Depth : Z;
  Params : list string
}.
End CallFrame.

(** The declarations of [AstNode], [SourceMapping] and [TruffleContract] are
    not in [tracer.go]; these records hold the fields the tracer reads.
    [Parameters] is the list the tracer reaches as
    [node.Parameters.Parameters], [TypeString] is
    [node.TypeDescriptions.TypeString]. *)
Module AstNode.
#[warnings="-register-all"]
Inductive t := mk {
  Name : string;
  Source : string;
  TypeString : string;
  Parameters : list t
}.
End AstNode.

Module SourceMapping.
Record t := mk { Start : Z; Length : Z; Line : Z }.
End SourceMapping.

Module TruffleContract.
Record t := mk {
  Name : string;
  SourceMap : string;
  SourceCode : string;
  Ast : AstNode.t
}.
End TruffleContract.

Abbreviation CallStack := (list CallFrame.t) (only parsing).

(** [CallStack.Push]. *)
Definition Push (s : CallStack) (frame : CallFrame.t) : CallStack := s ++ [frame].

(** [CallStack.Pop]: panics on the empty stack. *)
Definition Pop (s : CallStack) : option CallStack :=
  if decide (length s = 0%nat) then None else Some (take (length s - 1) s).

(** [CallStack.Peek]. *)
Definition Peek (s : CallStack) : option CallFrame.t :=
  if decide (length s = 0%nat) then None else s !! (length s - 1)%nat.

(** The loop of [CallStack.Lookup], with [n] = [i + 1]: it visits the frames
    at [n - 1], [n - 2], ..., [0]. *)
Fixpoint Lookup_from (s : CallStack) (pc : Z) (n : nat) : bool :=
  match n with
  | O => false
  | S i =>
      match s !! i with
      | Some f => if CallFrame.PC f =? pc then true else Lookup_from s pc i
      | None => false
      end
  end.

(** [CallStack.Lookup]. *)
Definition Lookup (s : CallStack) (pc : Z) : bool := Lookup_from s pc (length s).

(** [Tracer].  The three memoization tables and the artifacts are keyed by
    the lower-cased address string. *)
Record Tracer := mkTracer {
  LastJump : option CallFrame.t;
  Stack : CallStack;
  contracts : gmap string TruffleContract.t;
  instructionMaps : gmap string (gmap Z Z);
  sourceMaps : gmap string (list SourceMapping.t);
  receivers : gmap string (list string);
  functionDefs : gmap string (list AstNode.t);
  jumpDepth : Z
}.

Definition set_LastJump (v : option CallFrame.t) (t : Tracer) : Tracer :=
  mkTracer v (Stack t) (contracts t) (instructionMaps t) (sourceMaps t)
           (receivers t) (functionDefs t) (jumpDepth t).

Definition set_Stack (v : CallStack) (t : Tracer) : Tracer :=
  mkTracer (LastJump t) v (contracts t) (instructionMaps t) (sourceMaps t)
           (receivers t) (functionDefs t) (jumpDepth t).

Definition set_instructionMaps (v : gmap string (gmap Z Z)) (t : Tracer) : Tracer :=
  mkTracer (LastJump t) (Stack t) (contracts t) v (sourceMaps t)
           (receivers t) (functionDefs t) (jumpDepth t).

Definition set_jumpDepth (v : Z) (t : Tracer) : Tracer :=
  mkTracer (LastJump t) (Stack t) (contracts t) (instructionMaps t) (sourceMaps t)
           (receivers t) (functionDefs t) v.

(** ** Callbacks as state transformers that may panic *)

(** What the tracer prints ([log.Print], [log.Printf], [fmt.Println]). *)
Inductive LogLine :=
| MissingToInstruction
| JumpDepthOutOfBounds
| Fault (pc op : Z) (address : string)
| ErrorDepth (depth : Z).

(** The result of running a piece of the tracer: it returns, or it panics;
    both leave a tracer state and the lines printed on the way. *)
Inductive outcome (A : Type) :=
| Returned (a : A) (t : Tracer) (out : list LogLine)
| Panicked (t : Tracer) (out : list LogLine).
Arguments Returned {A} a t out.
Arguments Panicked {A} t out.

Definition final {A} (o : outcome A) : Tracer :=
  match o with Returned _ t _ => t | Panicked t _ => t end.

Definition printed {A} (o : outcome A) : list LogLine :=
  match o with Returned _ _ out => out | Panicked _ out => out end.

Definition returns {A} (o : outcome A) : bool :=
  match o with Returned _ _ _ => true | Panicked _ _ => false end.

Definition M (A : Type) : Type := Tracer -> outcome A.

Definition ret {A} (a : A) : M A := fun t => Returned a t [].

Definition panic {A} : M A := fun t => Panicked t [].

Definition bindM {A B} (m : M A) (k : A -> M B) : M B :=
  fun t =>
    match m t with
    | Returned a t1 out1 =>
        match k a t1 with
        | Returned b t2 out2 => Returned b t2 (out1 ++ out2)
        | Panicked t2 out2 => Panicked t2 (out1 ++ out2)
        end
    | Panicked t1 out1 => Panicked t1 out1
    end.

Notation "'let*' x ':=' m 'in' k" := (bindM m (fun x => k))
  (at level 10, x pattern, m at level 100, k at level 200).

Definition get : M Tracer := fun t => Returned t t [].

Definition modify (f : Tracer -> Tracer) : M unit := fun t => Returned tt (f t) [].

Definition print (l : LogLine) : M unit := fun t => Returned tt t [l].

(** A pure step that panics when it yields [None]. *)
Definition orPanic {A} (o : option A) : M A :=
  match o with Some a => ret a | None => panic end.

(** [defer d; body]: [d] runs when [body] returns and when it panics. *)
Definition defer {A} (d : Tracer -> Tracer) (body : M A) : M A :=
  fun t =>
    match body t with
    | Returned a t1 out => Returned a (d t1) out
    | Panicked t1 out => Panicked (d t1) out
    end.

(** [l[i]] for an index held in a [uint64] or an [int]. *)
Definition at_index {A} (l : list A) (i : Z) : option A :=
  if (0 <=? i) && (i <? Z.of_nat (length l)) then l !! Z.to_nat i else None.

(** ** A small concrete setting

    Stand-ins for the collaborators of the tracer, used to run it on
    concrete inputs. *)
Module Demo.

(** Hexadecimal without the checksum casing, short addresses unpadded. *)
Definition AddressString (a : Z) : string :=
  ("0x" ++ Go.hex [match Byte.of_N (Z.to_N (a mod 256)) with
                   | Some b => b
                   | None => Byte.x00
                   end])%string.

(** The selector is kept in the [Name] of the definition. *)
Definition Receiver (fnDef : AstNode.t) : string := AstNode.Name fnDef.

(** The public functions are the children of the root, the private ones
    the children of its first child. *)
Definition DiscoverFunctionDefinitions (ast : AstNode.t) : list AstNode.t :=
  AstNode.Parameters ast.

Definition DiscoverPrivateFunctionDefinitions (ast : AstNode.t) : list AstNode.t :=
  match AstNode.Parameters ast with
  | first :: _ => AstNode.Parameters first
  | [] => []
  end.

Definition DiscoverReceivers (ast : AstNode.t) : list string :=
  AstNode.Name <$> AstNode.Parameters ast.

(** One mapping a character of the source map: the character code is
    the start of the span. *)
Fixpoint ParseSourceMap (sourceMap source : string) : list SourceMapping.t :=
  match sourceMap with
  | EmptyString => []
  | String c r =>
      SourceMapping.mk (Z.of_N (N_of_ascii c) - 48) 1 1 :: ParseSourceMap r source
  end.

(** Every byte is a one-byte instruction. *)
Definition InstructionByBytecodePosition (code : list Byte.byte) : gmap Z Z :=
  list_to_map ((fun i => (Z.of_nat i, Z.of_nat i)) <$> seq 0 (length code)).

Definition MatchFunction (s : string) : bool := Go.HasPrefix s "function".

Definition Memory : Type := list Byte.byte.

Definition MemoryGet (m : Memory) (offset size : Z) : Go.bytes :=
  Go.mkBytes (take (Z.to_nat size) (drop (Z.to_nat offset) m)) [].

Definition uintParam (name : string) : AstNode.t :=
  AstNode.mk name EmptyString "uint256" [].

Definition intParam (name : string) : AstNode.t :=
  AstNode.mk name EmptyString "int256" [].

(** [function _store(uint256 val, int256 delta)] at offset 3. *)
Definition store : AstNode.t :=
  AstNode.mk "_store" "3:9:0" EmptyString [uintParam "val"; intParam "delta"].

(** [function set(uint256 x)] with selector 60fe47b1. *)
Definition set : AstNode.t :=
  AstNode.mk "60fe47b1" "0:3:0" EmptyString [uintParam "x"].

Definition ast : AstNode.t :=
  AstNode.mk "root" EmptyString EmptyString
             [AstNode.mk "private" EmptyString EmptyString [store]; set].

Definition artifact : TruffleContract.t :=
  TruffleContract.mk "A" "00033" "set_store()."  ast.

Definition vmContract : VMContract.t :=
  VMContract.mk 0xaa [Byte.x00; Byte.x56; Byte.x57; Byte.x5b; Byte.x5b].

Definition artifacts : gmap string TruffleContract.t :=
  {[ "0xaa"%string := artifact ]}.

Definition ones (n : nat) : list Byte.byte := replicate n Byte.xff.

(** The input of [set(7)]. *)
Definition calldata : Go.bytes :=
  Go.mkBytes ([Byte.x60; Byte.xfe; Byte.x47; Byte.xb1]
                ++ replicate 31 Byte.x00 ++ [Byte.x07]) [].

(** The tracer [NewTracer] builds from [artifacts]. *)
Definition fresh : Tracer :=
  {| LastJump := None;
     Stack := [];
     contracts := artifacts;
     instructionMaps := ∅;
     sourceMaps := {[ "0xaa"%string := ParseSourceMap "00033" "set_store()." ]};
     receivers := {[ "0xaa"%string := ["private"%string; "60fe47b1"%string] ]};
     functionDefs := {[ "0xaa"%string := [store] ]};
     jumpDepth := 0 |}.

(** The frame a JUMP at program counter 1 leaves pending. *)
Definition jumpFrame : CallFrame.t :=
  {| CallFrame.Contract := "0xaa";
     CallFrame.Instruction := 1;
     CallFrame.Source := "s";
     CallFrame.Line := 1;
     CallFrame.PC := 1;
     CallFrame.Depth := 0;
     CallFrame.Params := [] |}.

(** The tracer after that JUMP. *)
Definition pending : Tracer :=
  set_LastJump (Some jumpFrame)
    (set_instructionMaps
       {[ "0xaa"%string := InstructionByBytecodePosition (VMContract.Code vmContract) ]}
       fresh).

(** The frame pushed when the JUMPDEST at program counter 3 enters
    [_store] on the evaluation stack 5, 7, 9 (9 on top). *)
Definition storeFrame : CallFrame.t :=
  {| CallFrame.Contract := "0xaa";
     CallFrame.Instruction := 1;
     CallFrame.Source := "s";
     CallFrame.Line := 1;
     CallFrame.PC := 1;
     CallFrame.Depth := 0;
     CallFrame.Params := ["val = 7"%string; "delta = 9"%string] |}.

(** The tracer after that JUMPDEST. *)
Definition entered : Tracer :=
  set_jumpDepth 1 (set_Stack [storeFrame] (set_LastJump None pending)).

(** Memory holding a call of an unknown selector, and the evaluation stack
    of a CALL to address 0xaa that passes its first 36 bytes. *)
Definition callMemory : Memory := replicate 36 Byte.x00.
Definition callStack : list Z := [36; 0; 0; 0xaa; 0].

(** The frame [CaptureStart] pushes for [set(7)]. *)
Definition setFrame : CallFrame.t :=
  {| CallFrame.Contract := "0xaa";
     CallFrame.Instruction := 0;
     CallFrame.Source := "set";
     CallFrame.Line := 1;
     CallFrame.PC := 0;
     CallFrame.Depth := 0;
     CallFrame.Params := ["x = 7"%string] |}.


(** A contract with no artifact, and one at the traced address whose code
    is longer than the source map. *)
Definition otherContract : VMContract.t := VMContract.mk 0xbb [Byte.x00].
Definition longContract : VMContract.t := VMContract.mk 0xaa (replicate 7 Byte.x00).

(** A source of three lines: a, b and c. *)
Definition threeLines : string :=
  String "a" (String (ascii_of_N 10)
    (String "b" (String (ascii_of_N 10) (String "c" EmptyString)))).

(** A frame naming the contract with no artifact. *)
Definition strayFrame : CallFrame.t :=
  {| CallFrame.Contract := "0xbb";
     CallFrame.Instruction := 0;
     CallFrame.Source := "N/A";
     CallFrame.Line := 0;
     CallFrame.PC := 0;
     CallFrame.Depth := 1;
     CallFrame.Params := [] |}.

End Demo.

(** ** The parameter decoders *)

Definition newline : ascii := ascii_of_N 10.
Definition colon : ascii := ":"%char.

Section Tracer.

(** [common.Address.String]: the checksummed hexadecimal form. *)
Variable AddressString : Z -> string.
(** [AstNode.Receiver]: the selector of a function definition, in
    hexadecimal. *)
Variable Receiver : AstNode.t -> string.
Variable DiscoverFunctionDefinitions : AstNode.t -> list AstNode.t.
Variable DiscoverPrivateFunctionDefinitions : AstNode.t -> list AstNode.t.
Variable DiscoverReceivers : AstNode.t -> list string.
Variable ParseSourceMap : string -> string -> list SourceMapping.t.
Variable InstructionByBytecodePosition : list Byte.byte -> gmap Z Z.
(** [regexp.MatchString] with the tracer's pattern
    [(?m)function(.*\s)+}]; the pattern compiles, so no error comes back. *)
Variable MatchFunction : string -> bool.
(** [vm.Memory] and its [Get(offset, size)]. *)
Variable Memory : Type.
Variable MemoryGet : Memory -> Z -> Z -> Go.bytes.

Definition isInteger (name : string) : bool :=
  Go.HasPrefix name "int" || Go.HasPrefix name "uint".

(** [DecodeParam]; [None] when [input[offset : offset+32]] panics. *)
Definition DecodeParam (node : AstNode.t) (offset : Z) (input : Go.bytes)
  : option (string * Z) :=
  let name := AstNode.TypeString node in
  if isInteger name then
    w ← Go.slice input offset (wrap_int64 (offset + 32));
    let val := Go.SetBytes (Go.elems w) in
    Some ((AstNode.Name node ++ " = " ++ Go.decimal val)%string, 32)
  else if String.eqb name "address" then
    val ← Go.slice input offset (wrap_int64 (offset + 32));
    Some ((AstNode.Name node ++ " = "
             ++ AddressString (BytesToAddress (Go.elems val)))%string, 32)
  else if String.eqb name "bool" then
    w ← Go.slice input offset (wrap_int64 (offset + 32));
    let val := Go.SetBytes (Go.elems w) in
    if 0 <? val then Some ((AstNode.Name node ++ " = true")%string, 32)
    else Some ((AstNode.Name node ++ " = false")%string, 32)
  else Some (EmptyString, 32).

(** [DecodeStack]. *)
Definition DecodeStack (node : AstNode.t) (item : Z) : string :=
  let name := AstNode.TypeString node in
  if isInteger name then
    (AstNode.Name node ++ " = " ++ Go.decimal item)%string
  else if String.eqb name "address" then
    (AstNode.Name node ++ " = " ++ AddressString (BigToAddress item))%string
  else if String.eqb name "bool" then
    if 0 <? item then (AstNode.Name node ++ " = true")%string
    else (AstNode.Name node ++ " = false")%string
  else EmptyString.

(** The loop over the parameters in [CaptureStart] and at the call
    opcodes: decode at [offset], advance, keep the non-empty strings. *)
Fixpoint decodeParams (nodes : list AstNode.t) (offset : Z) (input : Go.bytes)
         (params : list string) : option (list string) :=
  match nodes with
  | [] => Some params
  | param :: rest =>
      match DecodeParam param offset input with
      | None => None
      | Some (p, o) =>
          let offset := wrap_int64 (offset + o) in
          if String.eqb p EmptyString then decodeParams rest offset input params
          else decodeParams rest offset input (params ++ [p])
      end
  end.

(** The loop over the parameters at a function entry, with [count]
    iterations left: parameter [len - 1 - i] is decoded from the [i]-th
    word from the top of the evaluation stack. *)
Fixpoint decodeStackParams (paramNodes : list AstNode.t) (stack : list Z)
         (count i : nat) (params : list string) : option (list string) :=
  match count with
  | O => Some params
  | S count =>
      match paramNodes !! (length paramNodes - 1 - i)%nat, Back stack i with
      | Some node, Some item =>
          let p := DecodeStack node item in
          if String.eqb p EmptyString
          then decodeStackParams paramNodes stack count (S i) params
          else decodeStackParams paramNodes stack count (S i) (params ++ [p])
      | _, _ => None
      end
  end.

(** The in-place reversal that follows: swap [params[left]] and
    [params[right]] while [left < right]. *)
Fixpoint swapLoop (fuel : nat) (left right : Z) (params : list string)
  : option (list string) :=
  if left <? right then
    match fuel with
    | O => None
    | S fuel =>
        match at_index params left, at_index params right with
        | Some x, Some y =>
            swapLoop fuel (left + 1) (right - 1)
                     (<[Z.to_nat left := y]> (<[Z.to_nat right := x]> params))
        | _, _ => None
        end
    end
  else Some params.

Definition reverseInPlace (params : list string) : option (list string) :=
  swapLoop (length params) 0 (Z.of_nat (length params) - 1) params.

(** ** From a program counter to the source *)

Definition key (contract : VMContract.t) : string :=
  Go.ToLower (AddressString (VMContract.Address contract)).

(** [Tracer.toInstruction]: the instruction index of the contract is
    built on first use and kept. *)
Definition toInstruction (contract : VMContract.t) (pc : Z) : M Z :=
  let* t := get in
  let* pcToI :=
    match instructionMaps t !! key contract with
    | Some pcToI => ret pcToI
    | None =>
        let pcToI := InstructionByBytecodePosition (VMContract.Code contract) in
        let* _ := modify (fun t =>
          set_instructionMaps (<[key contract := pcToI]> (instructionMaps t)) t) in
        ret pcToI
    end in
  match pcToI !! pc with
  | Some i => ret i
  | None => let* _ := print MissingToInstruction in ret 0
  end.

(** [Tracer.toLine]. *)
Definition toLine (mapping : option SourceMapping.t) : Z :=
  match mapping with
  | None => 0
  | Some mapping => SourceMapping.Line mapping
  end.

(** [Tracer.toSourceMapping]; [int(instruction)] reinterprets the
    [uint64]. *)
Definition toSourceMapping (contract : VMContract.t) (instruction : Z)
  : M (option SourceMapping.t) :=
  let* t := get in
  match sourceMaps t !! key contract with
  | None => ret None
  | Some srcMap =>
      if Z.of_nat (length srcMap) <=? wrap_int64 instruction then ret None
      else let* m := orPanic (at_index srcMap instruction) in ret (Some m)
  end.

Definition sameSpan (a b : SourceMapping.t) : bool :=
  (SourceMapping.Start a =? SourceMapping.Start b)
  && (SourceMapping.Length a =? SourceMapping.Length b).

(** The loop of [toPreviousSourceMapping] from [realInstruction] on.  At
    [realInstruction = 0] the decrement wraps to [2^64 - 1], an index no
    slice has, and the next [srcMap[realInstruction]] panics. *)
Fixpoint walkBack (srcMap : list SourceMapping.t) (next : SourceMapping.t)
         (realInstruction : nat) : option SourceMapping.t :=
  match srcMap !! realInstruction with
  | None => None
  | Some m =>
      if sameSpan next m then
        match realInstruction with
        | O => None
        | S realInstruction => walkBack srcMap next realInstruction
        end
      else Some m
  end.

(** The body of [toPreviousSourceMapping] once the source map is found;
    the outer [option] is the panic. *)
Definition previousIn (srcMap : list SourceMapping.t) (instruction : Z)
  : option (option SourceMapping.t) :=
  if Z.of_nat (length srcMap) <=? wrap_int64 instruction then Some None
  else
    next ← at_index srcMap instruction;
    let realInstruction := wrap_uint64 (instruction - 1) in
    if realInstruction <? Z.of_nat (length srcMap) then
      m ← walkBack srcMap next (Z.to_nat realInstruction); Some (Some m)
    else None.

(** [Tracer.toPreviousSourceMapping]. *)
Definition toPreviousSourceMapping (contract : VMContract.t) (instruction : Z)
  : M (option SourceMapping.t) :=
  let* t := get in
  match sourceMaps t !! key contract with
  | None => ret None
  | Some srcMap => orPanic (previousIn srcMap instruction)
  end.

(** The tail shared by [toSource] and [toPreviousSource]: a nil mapping
    is dereferenced when the contract has an artifact. *)
Definition sourceOf (contract : VMContract.t) (mapping : option SourceMapping.t)
  : M string :=
  let* t := get in
  match contracts t !! key contract with
  | None => ret "N/A"%string
  | Some truffleContract =>
      let* mapping := orPanic mapping in
      orPanic (Go.substr (TruffleContract.SourceCode truffleContract)
                 (SourceMapping.Start mapping)
                 (wrap_int64 (SourceMapping.Start mapping
                              + SourceMapping.Length mapping)))
  end.

(** [Tracer.toSource]. *)
Definition toSource (contract : VMContract.t) (pc : Z) : M string :=
  let* i := toInstruction contract pc in
  let* mapping := toSourceMapping contract i in
  sourceOf contract mapping.

(** [Tracer.toPreviousSource]. *)
Definition toPreviousSource (contract : VMContract.t) (pc : Z) : M string :=
  let* i := toInstruction contract pc in
  let* mapping := toPreviousSourceMapping contract i in
  sourceOf contract mapping.

Definition spanStart (fnDef : AstNode.t) : string :=
  hd EmptyString (Go.Split (AstNode.Source fnDef) colon).

(** [Tracer.isFunctionDefinition]: the first private function whose span
    starts where the mapping starts. *)
Definition isFunctionDefinition (t : Tracer) (contract : VMContract.t)
           (mapping : SourceMapping.t) : option AstNode.t :=
  match functionDefs t !! key contract with
  | None => None
  | Some fnDefs =>
      List.find (fun fnDef =>
        String.eqb (spanStart fnDef) (Go.Itoa (SourceMapping.Start mapping))) fnDefs
  end.

(** [Tracer.findFnDef]: [None] inside is the nil result. *)
Definition findFnDef (addr : string) (receiver : Go.bytes) : M (option AstNode.t) :=
  let* t := get in
  match contracts t !! Go.ToLower addr with
  | None => ret None
  | Some contract =>
      let fnDefs := DiscoverFunctionDefinitions (TruffleContract.Ast contract) in
      let* sel := orPanic (Go.slice receiver 0 4) in
      let target := Go.hex (Go.elems sel) in
      ret (List.find (fun fnDef => String.eqb (Receiver fnDef) target) fnDefs)
  end.

(** ** The callbacks *)

(** [NewTracer]. *)
Definition NewTracer (contracts : gmap string TruffleContract.t) : Tracer :=
  {| LastJump := None;
     Stack := [];
     contracts := contracts;
     instructionMaps := ∅;
     sourceMaps :=
       (fun contract => ParseSourceMap (TruffleContract.SourceMap contract)
                                       (TruffleContract.SourceCode contract))
         <$> contracts;
     receivers :=
       (fun contract => DiscoverReceivers (TruffleContract.Ast contract))
         <$> contracts;
     functionDefs :=
       (fun contract =>
          DiscoverPrivateFunctionDefinitions (TruffleContract.Ast contract))
         <$> contracts;
     jumpDepth := 0 |}.

(** The line-counting loop of [CaptureStart]; [rest] is
    [contract.SourceCode[i:]], so an empty [rest] is an index out of
    range. *)
Fixpoint lineLoop (rest : string) (i start l c : Z) : option (Z * Z) :=
  if i <? start then
    match rest with
    | EmptyString => None
    | String ch rest =>
        if Ascii.eqb ch newline then lineLoop rest (i + 1) start (l + 1) (0 + 1)
        else lineLoop rest (i + 1) start l (c + 1)
    end
  else Some (l, c).

(** One matching function definition in [CaptureStart]: the frame it
    pushes, or [None] for a panic. *)
Definition startFrame (contract : TruffleContract.t) (to : Z) (input : Go.bytes)
           (fnDef : AstNode.t) : option CallFrame.t :=
  match Go.Split (AstNode.Source fnDef) colon with
  | part0 :: part1 :: _ =>
      let '(start, ok) := Go.Atoi part0 in
      if negb ok then None
      else
        let '(length, _) := Go.Atoi part1 in
        '(l, _) ← lineLoop (TruffleContract.SourceCode contract) 0 start 1 1;
        params ← decodeParams (AstNode.Parameters fnDef) 4 input [];
        source ← Go.substr (TruffleContract.SourceCode contract)
                           start (wrap_int64 (start + length));
        Some {| CallFrame.Contract := Go.ToLower (AddressString to);
                CallFrame.Instruction := 0;
                CallFrame.Source := hd EmptyString (Go.Split source newline);
                CallFrame.Depth := 0;
                CallFrame.Line := l;
                CallFrame.PC := 0;
                CallFrame.Params := params |}
  | _ => None
  end.

Definition push (frame : CallFrame.t) : M unit :=
  modify (fun t => set_Stack (Push (Stack t) frame) t).

Fixpoint startLoop (contract : TruffleContract.t) (to : Z) (input : Go.bytes)
         (target : string) (fnDefs : list AstNode.t) : M unit :=
  match fnDefs with
  | [] => ret tt
  | fnDef :: rest =>
      if negb (String.eqb (Receiver fnDef) target)
      then startLoop contract to input target rest
      else
        let* frame := orPanic (startFrame contract to input fnDef) in
        let* _ := push frame in
        startLoop contract to input target rest
  end.

(** [Tracer.CaptureStart]. *)
Definition CaptureStart (to : Z) (input : Go.bytes) : M unit :=
  let* t := get in
  match contracts t !! Go.ToLower (AddressString to) with
  | None => ret tt
  | Some contract =>
      let fnDefs := DiscoverFunctionDefinitions (TruffleContract.Ast contract) in
      let* sel := orPanic (Go.slice input 0 4) in
      startLoop contract to input (Go.hex (Go.elems sel)) fnDefs
  end.

(** [uint64(depth) + uint64(t.jumpDepth)]. *)
Definition frameDepth (depth jumpDepth : Z) : Z :=
  wrap_uint64 (wrap_uint64 depth + wrap_uint64 jumpDepth).

(** The body of the cases [CALL, CALLCODE] and [STATICCALL,
    DELEGATECALL], which are the same text twice.  A nil [fnDef] is
    dereferenced by [fnDef.Parameters]. *)
Definition captureCall (pc : Z) (memory : Memory) (stack : list Z)
           (contract : VMContract.t) (depth : Z) : M unit :=
  let* addr := orPanic (Back stack 1) in
  let* offset := orPanic (Back stack 3) in
  let* size := orPanic (Back stack 4) in
  let data := MemoryGet memory (Go.Int64 offset) (Go.Int64 size) in
  let* receiver := orPanic (Go.slice data 0 4) in
  let* fnDef := findFnDef (AddressString (BigToAddress addr)) receiver in
  let* fnDef := orPanic fnDef in
  let* params := orPanic (decodeParams (AstNode.Parameters fnDef) 4 data []) in
  let* instruction := toInstruction contract pc in
  let* t := get in
  let depth := frameDepth depth (jumpDepth t) in
  let* source := toPreviousSource contract pc in
  let* i := toInstruction contract pc in
  let* mapping := toPreviousSourceMapping contract i in
  push {| CallFrame.Contract := key contract;
          CallFrame.Instruction := instruction;
          CallFrame.Depth := depth;
          CallFrame.Source := source;
          CallFrame.Line := toLine mapping;
          CallFrame.PC := 0;
          CallFrame.Params := params |}.

(** The case [JUMP]. *)
Definition captureJump (pc : Z) (contract : VMContract.t) (depth : Z) : M unit :=
  let* instruction := toInstruction contract pc in
  let* t := get in
  let depth := frameDepth depth (jumpDepth t) in
  let* source := toSource contract pc in
  let* i := toInstruction contract pc in
  let* mapping := toSourceMapping contract i in
  modify (set_LastJump (Some
    {| CallFrame.Contract := key contract;
       CallFrame.Instruction := instruction;
       CallFrame.Depth := depth;
       CallFrame.Source := source;
       CallFrame.Line := toLine mapping;
       CallFrame.PC := pc;
       CallFrame.Params := [] |})).

Definition withParams (params : list string) (f : CallFrame.t) : CallFrame.t :=
  {| CallFrame.Contract := CallFrame.Contract f;
     CallFrame.Instruction := CallFrame.Instruction f;
     CallFrame.Source := CallFrame.Source f;
     CallFrame.Line := CallFrame.Line f;
     CallFrame.PC := CallFrame.PC f;
     CallFrame.Depth := CallFrame.Depth f;
     CallFrame.Params := params |}.

(** The parameters of a function entry: decoded from the top of the
    evaluation stack, then reversed in place. *)
Definition entryParams (paramNodes : list AstNode.t) (stack : list Z)
  : option (list string) :=
  params ← decodeStackParams paramNodes stack (length paramNodes) 0 [];
  reverseInPlace params.

(** The case [JUMPDEST] once it is not a return and the instruction has
    a source mapping: a frame is pushed when the mapping starts a
    private function and a jump is pending whose source does not match
    the pattern. *)
Definition captureEntry (stack : list Z) (contract : VMContract.t)
           (srcMapping : SourceMapping.t) : M unit :=
  let* t := get in
  match isFunctionDefinition t contract srcMapping, LastJump t with
  | Some fnDef, Some lastJump =>
      if MatchFunction (CallFrame.Source lastJump) then ret tt
      else
        let* params := orPanic (entryParams (AstNode.Parameters fnDef) stack) in
        let lastJump := withParams params lastJump in
        let* _ := modify (set_LastJump (Some lastJump)) in
        let* _ := push lastJump in
        modify (fun t => set_jumpDepth (wrap_int64 (jumpDepth t + 1)) t)
  | _, _ => ret tt
  end.

(** The case [JUMPDEST]. *)
Definition captureJumpdest (pc : Z) (stack : list Z) (contract : VMContract.t)
  : M unit :=
  let* t := get in
  if Lookup (Stack t) (wrap_uint64 (pc - 1)) then
    let* _ := modify (fun t => set_jumpDepth (wrap_int64 (jumpDepth t - 1)) t) in
    let* t := get in
    if jumpDepth t <? 0 then
      let* _ := print JumpDepthOutOfBounds in
      modify (set_jumpDepth 0)
    else ret tt
  else
    let* i := toInstruction contract pc in
    let* srcMapping := toSourceMapping contract i in
    match srcMapping with
    | None => ret tt
    | Some srcMapping => captureEntry stack contract srcMapping
    end.

(** The deferred function of [CaptureState]. *)
Definition clearLastJump (op : Z) (t : Tracer) : Tracer :=
  if (op =? Op.JUMP) || (op =? Op.JUMPI) then t else set_LastJump None t.

(** [Tracer.CaptureState]; the arguments it never reads ([env], [gas],
    [cost], [err]) are left out. *)
Definition CaptureState (pc op : Z) (memory : Memory) (stack : list Z)
           (contract : VMContract.t) (depth : Z) : M unit :=
  defer (clearLastJump op)
    (if (op =? Op.CALL) || (op =? Op.CALLCODE) then
       captureCall pc memory stack contract depth
     else if (op =? Op.STATICCALL) || (op =? Op.DELEGATECALL) then
       captureCall pc memory stack contract depth
     else if op =? Op.JUMP then captureJump pc contract depth
     else if op =? Op.JUMPDEST then captureJumpdest pc stack contract
     else if (op =? Op.RETURN) || (op =? Op.REVERT) || (op =? Op.STOP)
             || (op =? Op.SELFDESTRUCT) || (op =? InvalidOpcode) then ret tt
     else ret tt).

(** [Tracer.CaptureFault]: two log lines. *)
Definition CaptureFault (pc op : Z) (contract : VMContract.t) (depth : Z) : M unit :=
  let* _ := print (Fault pc op (key contract)) in
  print (ErrorDepth depth).

(** [Tracer.CaptureEnd]. *)
Definition CaptureEnd : M unit := ret tt.

(** ** A trace: the callbacks the VM makes, in order *)

Inductive Callback :=
| OnStart (to : Z) (input : Go.bytes)
| OnState (pc op : Z) (memory : Memory) (stack : list Z)
          (contract : VMContract.t) (depth : Z)
| OnFault (pc op : Z) (contract : VMContract.t) (depth : Z)
| OnEnd.

Definition callback (cb : Callback) : M unit :=
  match cb with
  | OnStart to input => CaptureStart to input
  | OnState pc op memory stack contract depth =>
      CaptureState pc op memory stack contract depth
  | OnFault pc op contract depth => CaptureFault pc op contract depth
  | OnEnd => CaptureEnd
  end.

(** The tracer after the callbacks [cbs]; a panic ends the program, so
    there is no state after it. *)
Fixpoint run (cbs : list Callback) (t : Tracer) : option Tracer :=
  match cbs with
  | [] => Some t
  | cb :: cbs =>
      match callback cb t with
      | Returned _ t _ => run cbs t
      | Panicked _ _ => None
      end
  end.

(** ** Vocabulary of the properties *)

(** [m] relates every tracer to the one it leaves, on return or panic. *)
Definition preserves {A} (R : Tracer -> Tracer -> Prop) (m : M A) : Prop :=
  forall t, R t (final (m t)).

(** Only the instruction index may differ. *)
Definition sameButIndex (t t' : Tracer) : Prop :=
  LastJump t' = LastJump t /\ Stack t' = Stack t
  /\ contracts t' = contracts t /\ sourceMaps t' = sourceMaps t
  /\ receivers t' = receivers t /\ functionDefs t' = functionDefs t
  /\ jumpDepth t' = jumpDepth t.

(** The frames of [t] are the first frames of [t']. *)
Definition framesKept (t t' : Tracer) : Prop := Stack t `prefix_of` Stack t'.

(** The invariant of the jump depth: between 0 and the number of frames. *)
Definition depthInv (t : Tracer) : Prop :=
  0 <= jumpDepth t <= Z.of_nat (length (Stack t)).

(** The frame stack fits a Go slice, whose length is an [int]. *)
Definition fitsInt (t : Tracer) : Prop :=
  Z.of_nat (length (Stack t)) <= max_int64.

Definition depthKept (t t' : Tracer) : Prop :=
  framesKept t t' /\ (depthInv t -> fitsInt t' -> depthInv t').

(** The words a function of [n] parameters finds on the evaluation
    stack, bottom first: the top [n] words. *)
Definition arguments (n : nat) (stack : list Z) : list Z :=
  drop (length stack - n) stack.

(** The parameter strings in source order: each parameter decoded from
    its word, the empty results left out. *)
Definition inSourceOrder (paramNodes : list AstNode.t) (stack : list Z)
  : list string :=
  filter (fun p => p <> EmptyString)
         (zip_with DecodeStack paramNodes (arguments (length paramNodes) stack)).

(** The jump depth is as it was. *)
Definition depthSame (t t' : Tracer) : Prop := jumpDepth t' = jumpDepth t.

(** The four call opcodes. *)
Definition isCall (op : Z) : bool :=
  (op =? Op.CALL) || (op =? Op.CALLCODE) || (op =? Op.STATICCALL)
  || (op =? Op.DELEGATECALL).

(** The reading of a 32-byte word that the specification gives for
    [intN]: two's complement. *)
Definition twosComplement256 (w : Z) : Z :=
  if w <? 2 ^ 255 then w else w - 2 ^ 256.

(** ** The output loop of [main]

    [main] prints a line for each frame of [tracer.Stack], in order:
    the name of the frame's contract, the line, [Depth + 2] tabs and the
    source. *)

Definition tab : ascii := ascii_of_N 9.

(** [strings.Repeat(s, count)] for a one-byte [s]: a negative count
    panics. *)
Definition Repeat (c : ascii) (count : Z) : option string :=
  if count <? 0 then None
  else Some (string_of_list_ascii (replicate (Z.to_nat count) c)).

(** One iteration: [contracts[frame.Contract]] is nil for a missing key,
    and [contract.Name] dereferences it. *)
Definition frameLine (artifacts : gmap string TruffleContract.t)
           (frame : CallFrame.t) : option string :=
  contract ← artifacts !! CallFrame.Contract frame;
  indent ← Repeat tab (wrap_int64 (wrap_uint64 (CallFrame.Depth frame + 2)));
  Some (TruffleContract.Name contract ++ ":" ++ Go.Itoa (CallFrame.Line frame)
          ++ indent ++ CallFrame.Source frame)%string.

(** The loop: the lines printed, and whether it ran to the end ([false]
    is a panic). *)
Fixpoint printFrames (artifacts : gmap string TruffleContract.t)
         (stack : list CallFrame.t) : list string * bool :=
  match stack with
  | [] => ([], true)
  | frame :: rest =>
      match frameLine artifacts frame with
      | None => ([], false)
      | Some line =>
          let '(lines, completed) := printFrames artifacts rest in
          (line :: lines, completed)
      end
  end.

(** ** More vocabulary *)

(** The types the decoders print. *)
Definition supported (name : string) : bool :=
  isInteger name || String.eqb name "address" || String.eqb name "bool".

(** The 32 bytes of the backing array of [input] from [offset] on. *)
Definition wordAt (input : Go.bytes) (offset : Z) : list Byte.byte :=
  take 32 (drop (Z.to_nat offset) (Go.elems input ++ Go.spare input)).

(** The number of line terminators among the first [start] bytes. *)
Definition newlinesBefore (src : string) (start : nat) : nat :=
  length (filter (fun ch => ch = newline) (take start (list_ascii_of_string src))).

(** The artifacts and the tables derived from them are as they were, and
    the instruction indices built so far are kept. *)
Definition tablesKept (t t' : Tracer) : Prop :=
  contracts t' = contracts t /\ sourceMaps t' = sourceMaps t
  /\ receivers t' = receivers t /\ functionDefs t' = functionDefs t
  /\ instructionMaps t ⊆ instructionMaps t'.

(** The frame names a contract of the artifact set [artifacts]. *)
Definition hasArtifact (artifacts : gmap string TruffleContract.t)
           (frame : CallFrame.t) : Prop :=
  is_Some (artifacts !! CallFrame.Contract frame).

(** The tracer works on [artifacts], and its frames and its pending jump
    name contracts of that set. *)
Definition artifactsInv (artifacts : gmap string TruffleContract.t) (t : Tracer)
  : Prop :=
  contracts t = artifacts
  /\ Forall (hasArtifact artifacts) (Stack t)
  /\ (forall frame, LastJump t = Some frame -> hasArtifact artifacts frame).

Definition artifactsKept (artifacts : gmap string TruffleContract.t)
           (t t' : Tracer) : Prop :=
  artifactsInv artifacts t -> artifactsInv artifacts t'.

(** The contract a per-instruction callback runs in, if it is one. *)
Definition runsIn (cb : Callback) : option VMContract.t :=
  match cb with
  | OnState _ _ _ _ contract _ => Some contract
  | _ => None
  end.

(** ** Fixed-width arithmetic *)

Lemma wrap_int64_id x : min_int64 <= x <= max_int64 -> wrap_int64 x = x.
Proof.
  unfold wrap_int64, min_int64, max_int64. intros H.
  rewrite Z.mod_small; lia.
Qed.

Lemma wrap_int64_range x : min_int64 <= wrap_int64 x <= max_int64.
Proof.
  unfold wrap_int64, min_int64, max_int64.
  pose proof (Z.mod_pos_bound (x + 2 ^ 63) (2 ^ 64)). lia.
Qed.

(** ** The frame stack *)

Lemma Lookup_from_true s pc n :
  Lookup_from s pc n = true ->
  exists i f, (i < n)%nat /\ s !! i = Some f /\ CallFrame.PC f = pc.
Proof.
  induction n as [|n IH]; cbn [Lookup_from]; [discriminate|].
  destruct (s !! n) as [f|] eqn:Hn; [|discriminate].
  destruct (CallFrame.PC f =? pc) eqn:Hpc.
  - intros _. exists n, f. split; [lia|]. split; [done|]. lia.
  - intros H. destruct (IH H) as (i & g & Hi & Hg & Hp).
    exists i, g. split; [lia|done].
Qed.

Lemma Lookup_from_found s pc n i f :
  (n <= length s)%nat -> (i < n)%nat -> s !! i = Some f -> CallFrame.PC f = pc ->
  Lookup_from s pc n = true.
Proof.
  induction n as [|n IH]; intros Hn Hi Hf Hpc; [lia|]. cbn [Lookup_from].
  destruct (s !! n) as [g|] eqn:Hg.
  - destruct (CallFrame.PC g =? pc) eqn:E; [done|].
    apply IH; [lia| |done|done].
    destruct (decide (i = n)) as [->|]; [|lia].
    rewrite Hf in Hg. inversion Hg; subst. lia.
  - apply lookup_ge_None in Hg. lia.
Qed.

(** [Lookup] answers whether some frame of the stack records [pc]. *)
Lemma Lookup_spec s pc :
  Lookup s pc = true <-> exists f, f ∈ s /\ CallFrame.PC f = pc.
Proof.
  unfold Lookup. split.
  - intros H. destruct (Lookup_from_true _ _ _ H) as (i & f & _ & Hf & Hp).
    exists f. split; [|done]. apply list_elem_of_lookup. eauto.
  - intros (f & Hin & Hp). apply list_elem_of_lookup in Hin as [i Hi].
    apply (Lookup_from_found s pc (length s) i f); [lia| |done|done].
    by apply lookup_lt_Some in Hi.
Qed.

(** ** Running the monad *)

Lemma final_bind {A B} (m : M A) (k : A -> M B) t :
  final (bindM m k t) =
  match m t with
  | Returned a t1 _ => final (k a t1)
  | Panicked t1 _ => t1
  end.
Proof.
  unfold bindM. destruct (m t) as [a t1 o1|t1 o1]; [|done].
  by destruct (k a t1).
Qed.

Lemma final_defer {A} d (body : M A) t :
  final (defer d body t) = d (final (body t)).
Proof. unfold defer. by destruct (body t). Qed.

Lemma bind_returned {A B} (m : M A) (k : A -> M B) t a t1 out1 :
  m t = Returned a t1 out1 ->
  bindM m k t =
  match k a t1 with
  | Returned b t2 out2 => Returned b t2 (out1 ++ out2)
  | Panicked t2 out2 => Panicked t2 (out1 ++ out2)
  end.
Proof. unfold bindM. by intros ->. Qed.

Section Preserves.

Context (R : Tracer -> Tracer -> Prop) `{!Reflexive R} `{!Transitive R}.

Lemma preserves_ret {A} (a : A) : preserves R (ret a).
Proof. intros t. simpl. reflexivity. Qed.

Lemma preserves_panic {A} : preserves R (@panic A).
Proof. intros t. simpl. reflexivity. Qed.

Lemma preserves_get : preserves R get.
Proof. intros t. simpl. reflexivity. Qed.

Lemma preserves_print l : preserves R (print l).
Proof. intros t. simpl. reflexivity. Qed.

Lemma preserves_orPanic {A} (o : option A) : preserves R (orPanic o).
Proof. destruct o; [apply preserves_ret|apply preserves_panic]. Qed.

Lemma preserves_modify f : (forall t, R t (f t)) -> preserves R (modify f).
Proof. intros H t. apply H. Qed.

Lemma preserves_bind {A B} (m : M A) (k : A -> M B) :
  preserves R m -> (forall a, preserves R (k a)) -> preserves R (bindM m k).
Proof.
  intros Hm Hk t. rewrite final_bind. specialize (Hm t).
  destruct (m t) as [a t1 o|t1 o]; simpl in Hm; [|done].
  etrans; [exact Hm|apply Hk].
Qed.

Lemma preserves_defer {A} d (body : M A) :
  (forall t, R t (d t)) -> preserves R body -> preserves R (defer d body).
Proof.
  intros Hd Hb t. rewrite final_defer. etrans; [apply Hb|apply Hd].
Qed.

(** The lookups only ever write the instruction index. *)
Hypothesis R_index : forall t v, R t (set_instructionMaps v t).

Lemma preserves_toInstruction contract pc :
  preserves R (toInstruction contract pc).
Proof.
  unfold toInstruction.
  apply preserves_bind; [apply preserves_get|intros t0].
  apply preserves_bind.
  - destruct (instructionMaps t0 !! key contract); [apply preserves_ret|].
    apply preserves_bind; [|intros; apply preserves_ret].
    apply preserves_modify. intros t. apply R_index.
  - intros pcToI. destruct (pcToI !! pc); [apply preserves_ret|].
    apply preserves_bind; [apply preserves_print|intros; apply preserves_ret].
Qed.

Lemma preserves_toSourceMapping contract i :
  preserves R (toSourceMapping contract i).
Proof.
  unfold toSourceMapping.
  apply preserves_bind; [apply preserves_get|intros t0].
  destruct (sourceMaps t0 !! key contract) as [srcMap|]; [|apply preserves_ret].
  destruct (_ <=? _); [apply preserves_ret|].
  apply preserves_bind; [apply preserves_orPanic|intros; apply preserves_ret].
Qed.

Lemma preserves_toPreviousSourceMapping contract i :
  preserves R (toPreviousSourceMapping contract i).
Proof.
  unfold toPreviousSourceMapping.
  apply preserves_bind; [apply preserves_get|intros t0].
  destruct (sourceMaps t0 !! key contract); [|apply preserves_ret].
  apply preserves_orPanic.
Qed.

Lemma preserves_sourceOf contract mapping :
  preserves R (sourceOf contract mapping).
Proof.
  unfold sourceOf.
  apply preserves_bind; [apply preserves_get|intros t0].
  destruct (contracts t0 !! key contract); [|apply preserves_ret].
  apply preserves_bind; [apply preserves_orPanic|intros; apply preserves_orPanic].
Qed.

Lemma preserves_toSource contract pc : preserves R (toSource contract pc).
Proof.
  unfold toSource.
  apply preserves_bind; [apply preserves_toInstruction|intros i].
  apply preserves_bind; [apply preserves_toSourceMapping|intros m].
  apply preserves_sourceOf.
Qed.

Lemma preserves_toPreviousSource contract pc :
  preserves R (toPreviousSource contract pc).
Proof.
  unfold toPreviousSource.
  apply preserves_bind; [apply preserves_toInstruction|intros i].
  apply preserves_bind; [apply preserves_toPreviousSourceMapping|intros m].
  apply preserves_sourceOf.
Qed.

Lemma preserves_findFnDef addr receiver : preserves R (findFnDef addr receiver).
Proof.
  unfold findFnDef.
  apply preserves_bind; [apply preserves_get|intros t0].
  destruct (contracts t0 !! Go.ToLower addr); [|apply preserves_ret].
  apply preserves_bind; [apply preserves_orPanic|intros; apply preserves_ret].
Qed.

End Preserves.

(** ** The relations the callbacks keep *)

#[local] Instance sameButIndex_refl : Reflexive sameButIndex.
Proof. intros t. unfold sameButIndex. tauto. Qed.

#[local] Instance sameButIndex_trans : Transitive sameButIndex.
Proof.
  intros a b c (?&?&?&?&?&?&?) (?&?&?&?&?&?&?). unfold sameButIndex.
  repeat split; congruence.
Qed.

Lemma sameButIndex_index t v : sameButIndex t (set_instructionMaps v t).
Proof. unfold sameButIndex. simpl. tauto. Qed.

#[local] Instance framesKept_refl : Reflexive framesKept.
Proof. intros t. unfold framesKept. reflexivity. Qed.

#[local] Instance framesKept_trans : Transitive framesKept.
Proof. intros a b c. unfold framesKept. apply transitivity. Qed.

Lemma framesKept_same t t' : Stack t' = Stack t -> framesKept t t'.
Proof. unfold framesKept. by intros ->. Qed.

Lemma framesKept_push t frame : framesKept t (set_Stack (Push (Stack t) frame) t).
Proof. unfold framesKept, Push. simpl. by apply prefix_app_r. Qed.

Lemma framesKept_length t t' :
  framesKept t t' -> (length (Stack t) <= length (Stack t'))%nat.
Proof. apply prefix_length. Qed.

#[local] Instance depthKept_refl : Reflexive depthKept.
Proof. intros t. split; [reflexivity|tauto]. Qed.

#[local] Instance depthKept_trans : Transitive depthKept.
Proof.
  intros a b c [Hab Ha] [Hbc Hb]. split; [by etrans|].
  intros Hinv Hfit. apply Hb; [|done]. apply Ha; [done|].
  unfold fitsInt in *. apply framesKept_length in Hbc. lia.
Qed.

Lemma depthKept_same t t' :
  Stack t' = Stack t -> jumpDepth t' = jumpDepth t -> depthKept t t'.
Proof.
  intros HS HJ. split; [by apply framesKept_same|].
  unfold depthInv. rewrite HS, HJ. tauto.
Qed.

(** ** The cases of [CaptureState] *)

Lemma CaptureState_JUMPDEST pc memory stack contract depth :
  CaptureState pc Op.JUMPDEST memory stack contract depth =
  defer (set_LastJump None) (captureJumpdest pc stack contract).
Proof. reflexivity. Qed.

Lemma CaptureState_JUMPI pc memory stack contract depth t :
  CaptureState pc Op.JUMPI memory stack contract depth t = Returned tt t [].
Proof. reflexivity. Qed.

Lemma CaptureState_call op pc memory stack contract depth :
  isCall op = true ->
  CaptureState pc op memory stack contract depth =
  defer (set_LastJump None) (captureCall pc memory stack contract depth).
Proof.
  unfold isCall, CaptureState, clearLastJump. intros H.
  assert (Hop : op = Op.CALL \/ op = Op.CALLCODE \/ op = Op.STATICCALL
                \/ op = Op.DELEGATECALL) by lia.
  by destruct Hop as [-> | [-> | [-> | ->]]].
Qed.

(** The return branch of the case [JUMPDEST], run to its end. *)
Lemma captureJumpdest_return pc stack contract t :
  Lookup (Stack t) (wrap_uint64 (pc - 1)) = true ->
  captureJumpdest pc stack contract t =
  let d := wrap_int64 (jumpDepth t - 1) in
  if d <? 0
  then Returned tt (set_jumpDepth 0 (set_jumpDepth d t)) [JumpDepthOutOfBounds]
  else Returned tt (set_jumpDepth d t) [].
Proof.
  intros H. unfold captureJumpdest, bindM, get. rewrite H.
  unfold modify. simpl. by destruct (wrap_int64 (jumpDepth t - 1) <? 0).
Qed.

(** C1.  At a JUMPDEST where some frame of the stack records the program
    counter [pc - 1], the callback returns; the jump depth is decremented
    and, if that made it negative, reset to 0 with one line printed; no
    frame is pushed and the frame stack is as it was. *)
Theorem jumpdest_return pc memory stack contract depth t :
  (exists f, f ∈ Stack t /\ CallFrame.PC f = wrap_uint64 (pc - 1)) ->
  exists t' out,
    CaptureState pc Op.JUMPDEST memory stack contract depth t = Returned tt t' out
    /\ Stack t' = Stack t
    /\ jumpDepth t' = Z.max 0 (wrap_int64 (jumpDepth t - 1))
    /\ (min_int64 < jumpDepth t <= max_int64 ->
        jumpDepth t' = Z.max 0 (jumpDepth t - 1))
    /\ out = (if wrap_int64 (jumpDepth t - 1) <? 0
              then [JumpDepthOutOfBounds] else [])
    /\ LastJump t' = None.
Proof.
  intros Hf. apply Lookup_spec in Hf.
  rewrite CaptureState_JUMPDEST. unfold defer.
  rewrite (captureJumpdest_return _ _ _ _ Hf). cbv zeta.
  assert (Hw : min_int64 < jumpDepth t <= max_int64 ->
               wrap_int64 (jumpDepth t - 1) = jumpDepth t - 1)
    by (intros; apply wrap_int64_id; lia).
  destruct (Z.ltb_spec (wrap_int64 (jumpDepth t - 1)) 0) as [E|E];
    eexists _, _; (split; [reflexivity|]); cbn [Stack jumpDepth LastJump
      set_LastJump set_jumpDepth];
    repeat split; try (intros Hr; specialize (Hw Hr)); lia.
Qed.

(** C3, as amended.  After a per-instruction callback whose opcode is
    neither JUMP nor JUMPI the pending jump is empty, whether the
    callback returned or panicked. *)
Theorem pending_jump_cleared pc op memory stack contract depth t :
  op <> Op.JUMP -> op <> Op.JUMPI ->
  LastJump (final (CaptureState pc op memory stack contract depth t)) = None.
Proof.
  intros HJ HI. unfold CaptureState. rewrite final_defer.
  unfold clearLastJump.
  destruct (op =? Op.JUMP) eqn:E1; [lia|].
  destruct (op =? Op.JUMPI) eqn:E2; [lia|]. reflexivity.
Qed.

(** A JUMPI leaves the tracer as it found it, pending jump included. *)
Lemma jumpi_keeps_pending_jump pc memory stack contract depth t :
  final (CaptureState pc Op.JUMPI memory stack contract depth t) = t.
Proof. by rewrite CaptureState_JUMPI. Qed.

(** ** Frames are only ever appended *)

Ltac side H := first [tc_solve | exact H].

Ltac lookups H :=
  repeat first
    [ solve [apply preserves_ret; side H]
    | solve [apply preserves_panic; side H]
    | solve [apply preserves_get; side H]
    | solve [apply preserves_print; side H]
    | solve [apply preserves_orPanic; side H]
    | solve [apply preserves_toInstruction; side H]
    | solve [apply preserves_toSourceMapping; side H]
    | solve [apply preserves_toPreviousSourceMapping; side H]
    | solve [apply preserves_toSource; side H]
    | solve [apply preserves_toPreviousSource; side H]
    | solve [apply preserves_findFnDef; side H]
    | apply preserves_bind; [tc_solve| |intros ?] ].

Lemma depthKept_index t v : depthKept t (set_instructionMaps v t).
Proof. by apply depthKept_same. Qed.

Lemma depthKept_push t frame : depthKept t (set_Stack (Push (Stack t) frame) t).
Proof.
  split; [apply framesKept_push|].
  unfold depthInv, Push. simpl. rewrite length_app. simpl. lia.
Qed.

Lemma captureCall_depthKept pc memory stack contract depth :
  preserves depthKept (captureCall pc memory stack contract depth).
Proof.
  unfold captureCall, push. lookups depthKept_index.
  apply preserves_modify. intros t. apply depthKept_push.
Qed.

Lemma captureJump_depthKept pc contract depth :
  preserves depthKept (captureJump pc contract depth).
Proof.
  unfold captureJump. lookups depthKept_index.
  apply preserves_modify. intros t. by apply depthKept_same.
Qed.

(** Decrement and clamp, as one step. *)
Lemma decrement_depthKept :
  preserves depthKept
    (let* _ := modify (fun t => set_jumpDepth (wrap_int64 (jumpDepth t - 1)) t) in
     let* t := get in
     if jumpDepth t <? 0 then
       let* _ := print JumpDepthOutOfBounds in
       modify (set_jumpDepth 0)
     else ret tt).
Proof.
  intros t. unfold bindM, modify, get. cbn [jumpDepth set_jumpDepth].
  destruct (Z.ltb_spec (wrap_int64 (jumpDepth t - 1)) 0) as [E|E];
    cbn [final print ret set_jumpDepth];
    (split; [by apply framesKept_same|]);
    unfold depthInv, fitsInt; cbn [Stack jumpDepth set_jumpDepth]; intros Hinv Hfit;
    [lia|].
  rewrite wrap_int64_id in *; unfold min_int64, max_int64 in *; lia.
Qed.

(** Patch the pending frame, push it and count it, as one step. *)
Lemma enter_depthKept lastJump :
  preserves depthKept
    (let* _ := modify (set_LastJump (Some lastJump)) in
     let* _ := push lastJump in
     modify (fun t => set_jumpDepth (wrap_int64 (jumpDepth t + 1)) t)).
Proof.
  intros t. unfold bindM, modify, push, Push.
  cbn [final Stack jumpDepth set_jumpDepth set_Stack set_LastJump].
  split; [unfold framesKept; simpl; by apply prefix_app_r|].
  unfold depthInv, fitsInt. simpl. rewrite length_app. simpl. intros Hinv Hfit.
  rewrite wrap_int64_id; unfold min_int64, max_int64 in *; lia.
Qed.

Lemma captureJumpdest_depthKept pc stack contract :
  preserves depthKept (captureJumpdest pc stack contract).
Proof.
  unfold captureJumpdest.
  apply preserves_bind; [tc_solve|lookups depthKept_index|intros t0].
  destruct (Lookup _ _); [apply decrement_depthKept|].
  apply preserves_bind; [tc_solve|lookups depthKept_index|intros i].
  apply preserves_bind; [tc_solve|lookups depthKept_index|intros [srcMapping|]];
    [|lookups depthKept_index].
  unfold captureEntry.
  apply preserves_bind; [tc_solve|lookups depthKept_index|intros t1].
  destruct (isFunctionDefinition _ _ _) as [fnDef|]; [|lookups depthKept_index].
  destruct (LastJump t1) as [lastJump|]; [|lookups depthKept_index].
  destruct (MatchFunction _); [lookups depthKept_index|].
  apply preserves_bind; [tc_solve|lookups depthKept_index|intros params].
  apply enter_depthKept.
Qed.

Lemma depthKept_clear op t : depthKept t (clearLastJump op t).
Proof. unfold clearLastJump. destruct (_ || _); by apply depthKept_same. Qed.

Lemma CaptureState_depthKept pc op memory stack contract depth :
  preserves depthKept (CaptureState pc op memory stack contract depth).
Proof.
  unfold CaptureState.
  apply preserves_defer; [tc_solve|apply depthKept_clear|].
  repeat match goal with
         | |- preserves _ (if ?b then _ else _) => destruct b
         end;
    first [apply captureCall_depthKept | apply captureJump_depthKept
          | apply captureJumpdest_depthKept | lookups depthKept_index].
Qed.

Lemma startLoop_depthKept contract to input target fnDefs :
  preserves depthKept (startLoop contract to input target fnDefs).
Proof.
  induction fnDefs as [|fnDef rest IH]; cbn [startLoop]; [lookups depthKept_index|].
  destruct (negb _); [exact IH|].
  apply preserves_bind; [tc_solve|lookups depthKept_index|intros frame].
  apply preserves_bind; [tc_solve| |intros _; exact IH].
  apply preserves_modify. intros t. apply depthKept_push.
Qed.

Lemma CaptureStart_depthKept to input : preserves depthKept (CaptureStart to input).
Proof.
  unfold CaptureStart.
  apply preserves_bind; [tc_solve|lookups depthKept_index|intros t0].
  destruct (contracts t0 !! _); [|lookups depthKept_index].
  apply preserves_bind; [tc_solve|lookups depthKept_index|intros sel].
  apply startLoop_depthKept.
Qed.

Lemma callback_depthKept cb : preserves depthKept (callback cb).
Proof.
  destruct cb; cbn [callback].
  - apply CaptureStart_depthKept.
  - apply CaptureState_depthKept.
  - intros t. reflexivity.
  - intros t. reflexivity.
Qed.

Lemma run_depthKept cbs : forall t t', run cbs t = Some t' -> depthKept t t'.
Proof.
  induction cbs as [|cb cbs IH]; intros t t'; cbn [run].
  - intros [= ->]. reflexivity.
  - pose proof (callback_depthKept cb t) as Hcb.
    destruct (callback cb t) as [[] t1 out|t1 out]; [|discriminate].
    intros Hrun. etrans; [exact Hcb|by apply IH].
Qed.

(** The opcodes that end a message call. *)
Lemma CaptureState_halt op pc memory stack contract depth t :
  op ∈ [Op.RETURN; Op.REVERT; Op.STOP; Op.SELFDESTRUCT; InvalidOpcode] ->
  CaptureState pc op memory stack contract depth t
  = Returned tt (set_LastJump None t) [].
Proof.
  intros H. repeat (apply elem_of_cons in H as [->|H]); try reflexivity.
  by apply elem_of_nil in H.
Qed.

(** C9.  No callback removes a frame: after [CaptureStart] and
    [CaptureState] the old stack is a prefix of the new one, whether they
    return or panic; [CaptureFault] and [CaptureEnd] leave the stack
    alone, and so does [CaptureState] at RETURN, REVERT, STOP,
    SELFDESTRUCT and INVALID; hence the stack after a trace extends the
    stack before it. *)
Theorem frames_never_removed t :
  (forall to input, Stack t `prefix_of` Stack (final (CaptureStart to input t)))
  /\ (forall pc op memory stack contract depth,
        Stack t `prefix_of`
          Stack (final (CaptureState pc op memory stack contract depth t)))
  /\ (forall pc op contract depth,
        Stack (final (CaptureFault pc op contract depth t)) = Stack t)
  /\ Stack (final (CaptureEnd t)) = Stack t
  /\ (forall pc op memory stack contract depth,
        op ∈ [Op.RETURN; Op.REVERT; Op.STOP; Op.SELFDESTRUCT; InvalidOpcode] ->
        Stack (final (CaptureState pc op memory stack contract depth t)) = Stack t)
  /\ (forall cbs t', run cbs t = Some t' -> Stack t `prefix_of` Stack t').
Proof.
  repeat split.
  - intros to input. apply (CaptureStart_depthKept to input t).
  - intros pc op memory stack contract depth.
    apply (CaptureState_depthKept pc op memory stack contract depth t).
  - intros pc op memory stack contract depth H.
    by rewrite (CaptureState_halt _ _ _ _ _ _ _ H).
  - intros cbs t' H. apply (run_depthKept _ _ _ H).
Qed.

(** ** Decoding from the evaluation stack *)

Lemma Back_arguments n stack i :
  (n <= length stack)%nat -> (i < n)%nat ->
  Back stack i = arguments n stack !! (n - 1 - i)%nat.
Proof.
  intros Hn Hi. unfold Back, arguments. rewrite lookup_drop.
  destruct (Z.leb_spec 0 (Z.of_nat (length stack) - Z.of_nat i - 1)); [|lia].
  f_equal. lia.
Qed.

(** Iteration [i] of the loop produces element [i] of the reversed
    source-order decoding. *)
Lemma decode_step paramNodes stack i :
  (length paramNodes <= length stack)%nat -> (i < length paramNodes)%nat ->
  exists node item,
    paramNodes !! (length paramNodes - 1 - i)%nat = Some node
    /\ Back stack i = Some item
    /\ reverse (zip_with DecodeStack paramNodes
                         (arguments (length paramNodes) stack)) !! i
       = Some (DecodeStack node item).
Proof.
  intros Hn Hi. set (n := length paramNodes) in *.
  assert (Hargs : length (arguments n stack) = n)
    by (unfold arguments; rewrite length_drop; lia).
  destruct (lookup_lt_is_Some_2 paramNodes (n - 1 - i)) as [node Hnode]; [lia|].
  destruct (lookup_lt_is_Some_2 (arguments n stack) (n - 1 - i)) as [item Hitem];
    [lia|].
  exists node, item. split; [done|]. split.
  - by rewrite (Back_arguments n).
  - rewrite reverse_lookup by (rewrite length_zip_with; lia).
    rewrite length_zip_with, Hargs. fold n.
    replace (n `min` n - S i)%nat with (n - 1 - i)%nat by lia.
    rewrite lookup_zip_with, Hnode. simpl. by rewrite Hitem.
Qed.

Lemma decodeStackParams_spec paramNodes stack :
  (length paramNodes <= length stack)%nat ->
  forall count i params,
    (i + count = length paramNodes)%nat ->
    decodeStackParams paramNodes stack count i params =
    Some (params ++ filter (fun p => p <> EmptyString)
            (drop i (reverse (zip_with DecodeStack paramNodes
                                (arguments (length paramNodes) stack))))).
Proof.
  intros Hn. induction count as [|count IH]; intros i params Hi;
    cbn [decodeStackParams].
  - rewrite drop_ge by (rewrite length_reverse, length_zip_with; lia).
    by rewrite filter_nil, app_nil_r.
  - destruct (decode_step paramNodes stack i Hn) as (node & item & -> & -> & Hd);
      [lia|].
    rewrite (drop_S _ _ _ Hd).
    destruct (String.eqb_spec (DecodeStack node item) EmptyString) as [E|E].
    + rewrite IH by lia. by rewrite filter_cons_False by (intros H; by apply H).
    + rewrite IH by lia. rewrite filter_cons_True by done.
      by rewrite <- app_assoc.
Qed.

Lemma at_index_nat {A} (l : list A) (i : nat) : at_index l (Z.of_nat i) = l !! i.
Proof.
  unfold at_index. destruct (Z.leb_spec 0 (Z.of_nat i)); [|lia].
  destruct (Z.ltb_spec (Z.of_nat i) (Z.of_nat (length l))); simpl.
  - by rewrite Nat2Z.id.
  - symmetry. apply lookup_ge_None. lia.
Qed.

Lemma swapLoop_spec fuel : forall (a mid b : list string),
  (length mid <= fuel)%nat ->
  swapLoop fuel (Z.of_nat (length a)) (Z.of_nat (length a + length mid) - 1)
           (a ++ mid ++ b)
  = Some (a ++ reverse mid ++ b).
Proof.
  induction fuel as [|fuel IH]; intros a mid b Hfuel.
  - destruct mid; [|simpl in Hfuel; lia]. cbn [swapLoop].
    destruct (Z.ltb_spec (Z.of_nat (length a))
                (Z.of_nat (length a + length (@nil string)) - 1));
      [simpl in *; lia|done].
  - cbn [swapLoop].
    destruct mid as [|x mid]; [|destruct mid as [|y' mid] using rev_ind].
    + destruct (Z.ltb_spec (Z.of_nat (length a))
                  (Z.of_nat (length a + length (@nil string)) - 1));
        [simpl in *; lia|done].
    + destruct (Z.ltb_spec (Z.of_nat (length a))
                  (Z.of_nat (length a + length [x]) - 1));
        [simpl in *; lia|done].
    + clear IHmid. rename y' into y.
      rewrite length_cons, length_app in *. simpl in Hfuel. simpl length.
      destruct (Z.ltb_spec (Z.of_nat (length a))
                  (Z.of_nat (length a + S (length mid + 1)) - 1)); [|lia].
      replace (Z.of_nat (length a + S (length mid + 1)) - 1)
        with (Z.of_nat (length a + S (length mid))) by lia.
      rewrite !at_index_nat, !Nat2Z.id.
      replace (a ++ (x :: mid ++ [y]) ++ b) with (a ++ x :: mid ++ y :: b)
        by (cbn [app]; by rewrite <- app_assoc).
      rewrite (list_lookup_middle a (mid ++ y :: b) x (length a)) by done.
      assert (Hy : (a ++ x :: mid ++ y :: b) !! (length a + S (length mid))%nat
                   = Some y).
      { rewrite lookup_app_r by lia.
        replace (length a + S (length mid) - length a)%nat with (S (length mid))
          by lia.
        cbn [lookup list_lookup]. by apply list_lookup_middle. }
      rewrite Hy.
      assert (Hswap : <[length a:=y]>
                        (<[(length a + S (length mid))%nat:=x]>
                           (a ++ x :: mid ++ y :: b))
                      = (a ++ [y]) ++ mid ++ ([x] ++ b)).
      { rewrite insert_app_r. cbn [insert list_insert].
        rewrite (insert_app_r_alt mid) by lia. rewrite Nat.sub_diag.
        rewrite (insert_app_r_alt a) by lia. rewrite Nat.sub_diag.
        cbn [insert list_insert]. by rewrite <- app_assoc. }
      rewrite Hswap.
      replace (Z.of_nat (length a) + 1) with (Z.of_nat (length (a ++ [y])))
        by (rewrite length_app; simpl; lia).
      replace (Z.of_nat (length a + S (length mid)) - 1)
        with (Z.of_nat (length (a ++ [y]) + length mid) - 1)
        by (rewrite length_app; simpl; lia).
      rewrite IH by lia.
      rewrite reverse_cons, reverse_snoc. cbn [app].
      by rewrite <- !app_assoc.
Qed.

(** The swap loop reverses the list, and never panics. *)
Lemma reverseInPlace_spec params : reverseInPlace params = Some (reverse params).
Proof.
  unfold reverseInPlace.
  pose proof (swapLoop_spec (length params) [] params [] (le_n _)) as H.
  cbn [length app Nat.add] in H. rewrite !app_nil_r in H. exact H.
Qed.

Lemma entryParams_spec paramNodes stack :
  (length paramNodes <= length stack)%nat ->
  entryParams paramNodes stack = Some (inSourceOrder paramNodes stack).
Proof.
  intros Hn. unfold entryParams, inSourceOrder.
  rewrite (decodeStackParams_spec _ _ Hn (length paramNodes) 0 []) by lia.
  cbn [mbind option_bind app]. rewrite reverseInPlace_spec. f_equal.
  rewrite drop_0, filter_reverse. apply reverse_involutive.
Qed.

(** C8.  At a function entry with [n] parameters on an evaluation stack
    of at least [n] words, the word [i] from the top is the argument of
    the parameter at source position [n - 1 - i], and the strings the
    tracer attaches are the decoded parameters in source order, the
    parameters of other types left out. *)
Theorem stack_parameters_in_source_order paramNodes stack :
  (length paramNodes <= length stack)%nat ->
  (forall i, (i < length paramNodes)%nat ->
     Back stack i
     = arguments (length paramNodes) stack !! (length paramNodes - 1 - i)%nat)
  /\ entryParams paramNodes stack
     = Some (filter (fun p => p <> EmptyString)
               (zip_with DecodeStack paramNodes
                         (arguments (length paramNodes) stack))).
Proof.
  intros Hn. split.
  - intros i Hi. by apply Back_arguments.
  - by apply entryParams_spec.
Qed.

(** ** Function entry *)

Lemma toInstruction_sameButIndex contract pc t :
  sameButIndex t (final (toInstruction contract pc t)).
Proof. apply preserves_toInstruction; [tc_solve..|apply sameButIndex_index]. Qed.

(** [toSourceMapping] reads the tracer and writes nothing. *)
Lemma toSourceMapping_final contract i t : final (toSourceMapping contract i t) = t.
Proof.
  unfold toSourceMapping, bindM, get.
  destruct (sourceMaps t !! key contract) as [srcMap|]; [|done].
  destruct (_ <=? _); [done|]. by destruct (at_index srcMap i).
Qed.

Lemma isFunctionDefinition_found t contract mapping fnDef :
  isFunctionDefinition t contract mapping = Some fnDef ->
  exists fnDefs,
    functionDefs t !! key contract = Some fnDefs /\ fnDef ∈ fnDefs
    /\ spanStart fnDef = Go.Itoa (SourceMapping.Start mapping).
Proof.
  unfold isFunctionDefinition.
  destruct (functionDefs t !! key contract) as [fnDefs|]; [|discriminate].
  intros H. apply find_some in H as [Hin Heq]. exists fnDefs.
  split; [done|]. split; [by apply list_elem_of_In|].
  by apply String.eqb_eq.
Qed.

(** A private function whose span starts where the mapping starts makes
    [isFunctionDefinition] answer with such a function. *)
Lemma isFunctionDefinition_exists t contract mapping fnDefs fnDef :
  functionDefs t !! key contract = Some fnDefs ->
  fnDef ∈ fnDefs ->
  spanStart fnDef = Go.Itoa (SourceMapping.Start mapping) ->
  is_Some (isFunctionDefinition t contract mapping).
Proof.
  intros Hdefs Hin Hstart. unfold isFunctionDefinition. rewrite Hdefs.
  destruct (List.find _ fnDefs) as [found|] eqn:E; [by eexists|].
  apply list_elem_of_In in Hin.
  pose proof (find_none _ _ E fnDef Hin) as Hno. cbv beta in Hno.
  rewrite Hstart, String.eqb_refl in Hno. discriminate.
Qed.

Lemma isFunctionDefinition_sameButIndex t t' contract mapping :
  sameButIndex t t' ->
  isFunctionDefinition t' contract mapping = isFunctionDefinition t contract mapping.
Proof.
  intros (_&_&_&_&_&H&_). unfold isFunctionDefinition. by rewrite H.
Qed.

(** The entry branch, run to its end. *)
Lemma captureEntry_enters stack contract srcMapping t fnDef lastJump params :
  isFunctionDefinition t contract srcMapping = Some fnDef ->
  LastJump t = Some lastJump ->
  MatchFunction (CallFrame.Source lastJump) = false ->
  entryParams (AstNode.Parameters fnDef) stack = Some params ->
  captureEntry stack contract srcMapping t =
  Returned tt
    (set_jumpDepth (wrap_int64 (jumpDepth t + 1))
       (set_Stack (Stack t ++ [withParams params lastJump])
          (set_LastJump (Some (withParams params lastJump)) t))) [].
Proof.
  intros Hfn Hlj Hre Hpar. unfold captureEntry, bindM, get.
  rewrite Hfn, Hlj, Hre, Hpar. reflexivity.
Qed.

(** The entry branch pushes one frame and counts it, or does nothing. *)
Lemma captureEntry_cases stack contract srcMapping t :
  let t' := final (captureEntry stack contract srcMapping t) in
  t' = t
  \/ exists frame,
       Stack t' = Stack t ++ [frame]
       /\ jumpDepth t' = wrap_int64 (jumpDepth t + 1).
Proof.
  unfold captureEntry, bindM, get.
  destruct (isFunctionDefinition t contract srcMapping) as [fnDef|]; [|by left].
  destruct (LastJump t) as [lastJump|]; [|by left].
  destruct (MatchFunction _); [by left|].
  destruct (entryParams _ _) as [params|]; [|by left].
  right. by eexists.
Qed.

(** C2, as amended.  At a JUMPDEST that is not a return, when the source
    mapping of the instruction starts a private function definition, a
    jump is pending and its source does not match the pattern, and the
    evaluation stack holds a word for each parameter of the function, the
    callback returns and has pushed one frame: the pending frame, with all
    its fields as the JUMP recorded them and with the parameters decoded in
    stack mode from the parameter list of the function attached; the jump
    depth has grown by one (in [int64]), and no jump is pending. *)
Theorem jumpdest_entry pc memory stack contract depth t i t1 out1 t2 out2
        srcMapping fnDef lastJump :
  Lookup (Stack t) (wrap_uint64 (pc - 1)) = false ->
  toInstruction contract pc t = Returned i t1 out1 ->
  toSourceMapping contract i t1 = Returned (Some srcMapping) t2 out2 ->
  isFunctionDefinition t contract srcMapping = Some fnDef ->
  LastJump t = Some lastJump ->
  MatchFunction (CallFrame.Source lastJump) = false ->
  (length (AstNode.Parameters fnDef) <= length stack)%nat ->
  exists frame t' out,
    CaptureState pc Op.JUMPDEST memory stack contract depth t
    = Returned tt t' out
    /\ Stack t' = Stack t ++ [frame]
    /\ CallFrame.Params frame
       = filter (fun p => p <> EmptyString)
           (zip_with DecodeStack (AstNode.Parameters fnDef)
              (arguments (length (AstNode.Parameters fnDef)) stack))
    /\ entryParams (AstNode.Parameters fnDef) stack
       = Some (CallFrame.Params frame)
    /\ CallFrame.Contract frame = CallFrame.Contract lastJump
    /\ CallFrame.Instruction frame = CallFrame.Instruction lastJump
    /\ CallFrame.Source frame = CallFrame.Source lastJump
    /\ CallFrame.Line frame = CallFrame.Line lastJump
    /\ CallFrame.PC frame = CallFrame.PC lastJump
    /\ CallFrame.Depth frame = CallFrame.Depth lastJump
    /\ jumpDepth t' = wrap_int64 (jumpDepth t + 1)
    /\ (min_int64 <= jumpDepth t < max_int64 -> jumpDepth t' = jumpDepth t + 1)
    /\ LastJump t' = None.
Proof.
  intros Hlk Hi Hm Hfn Hlj Hre Hst.
  pose proof (toInstruction_sameButIndex contract pc t) as H1.
  rewrite Hi in H1. cbn [final] in H1.
  pose proof (toSourceMapping_final contract i t1) as H2.
  rewrite Hm in H2. cbn [final] in H2. subst t2.
  pose proof (entryParams_spec _ _ Hst) as Hpar.
  rewrite <- (isFunctionDefinition_sameButIndex _ _ _ _ H1) in Hfn.
  destruct H1 as (HL & HS & _ & _ & _ & _ & HJ). rewrite <- HL in Hlj.
  eexists _, _, _.
  rewrite CaptureState_JUMPDEST. unfold defer, captureJumpdest.
  rewrite (bind_returned get _ t t t []) by reflexivity. rewrite Hlk.
  rewrite (bind_returned _ _ _ _ _ _ Hi).
  rewrite (bind_returned _ _ _ _ _ _ Hm).
  rewrite (captureEntry_enters _ _ _ _ _ _ _ Hfn Hlj Hre Hpar).
  split; [reflexivity|].
  cbn [Stack jumpDepth LastJump set_LastJump set_jumpDepth set_Stack].
  rewrite HS, HJ. split; [reflexivity|].
  cbn [withParams CallFrame.Params CallFrame.Contract CallFrame.Instruction
       CallFrame.Source CallFrame.Line CallFrame.PC CallFrame.Depth].
  split; [reflexivity|]. split; [exact Hpar|].
  do 7 (split; [reflexivity|]). split; [|reflexivity].
  intros Hjd. apply wrap_int64_id. unfold min_int64, max_int64 in *. lia.
Qed.

(** ** The jump depth *)

#[local] Instance depthSame_refl : Reflexive depthSame.
Proof. intros t. reflexivity. Qed.

#[local] Instance depthSame_trans : Transitive depthSame.
Proof. intros a b c. unfold depthSame. congruence. Qed.

Lemma depthSame_index t v : depthSame t (set_instructionMaps v t).
Proof. reflexivity. Qed.

Lemma captureCall_depthSame pc memory stack contract depth :
  preserves depthSame (captureCall pc memory stack contract depth).
Proof.
  unfold captureCall, push. lookups depthSame_index.
  apply preserves_modify. intros t. reflexivity.
Qed.

Lemma captureJump_depthSame pc contract depth :
  preserves depthSame (captureJump pc contract depth).
Proof.
  unfold captureJump. lookups depthSame_index.
  apply preserves_modify. intros t. reflexivity.
Qed.

Lemma depthSame_clear op t : depthSame t (clearLastJump op t).
Proof. unfold clearLastJump. by destruct (_ || _). Qed.

(** Away from JUMPDEST the jump depth does not move. *)
Lemma jumpDepth_moves_at_JUMPDEST_only pc op memory stack contract depth t :
  op <> Op.JUMPDEST ->
  jumpDepth (final (CaptureState pc op memory stack contract depth t))
  = jumpDepth t.
Proof.
  intros Hop. revert t. change (preserves depthSame
    (CaptureState pc op memory stack contract depth)).
  unfold CaptureState.
  apply preserves_defer; [tc_solve|apply depthSame_clear|].
  repeat match goal with
         | |- preserves _ (if ?b then _ else _) => destruct b eqn:?
         end;
    first [apply captureCall_depthSame | apply captureJump_depthSame
          | exfalso; lia | solve [lookups depthSame_index] ].
Qed.

(** At a JUMPDEST the jump depth is decremented and clamped (a return),
    or incremented together with a push (an entry), or left alone. *)
Lemma jumpDepth_at_JUMPDEST pc memory stack contract depth t :
  let t' := final (CaptureState pc Op.JUMPDEST memory stack contract depth t) in
  (Lookup (Stack t) (wrap_uint64 (pc - 1)) = true
   /\ jumpDepth t' = Z.max 0 (wrap_int64 (jumpDepth t - 1))
   /\ Stack t' = Stack t)
  \/ (Lookup (Stack t) (wrap_uint64 (pc - 1)) = false
      /\ ((jumpDepth t' = jumpDepth t /\ Stack t' = Stack t)
          \/ (jumpDepth t' = wrap_int64 (jumpDepth t + 1)
              /\ exists frame, Stack t' = Stack t ++ [frame]))).
Proof.
  rewrite CaptureState_JUMPDEST, final_defer. cbn zeta.
  destruct (Lookup (Stack t) (wrap_uint64 (pc - 1))) eqn:Hlk; [left|right].
  - rewrite (captureJumpdest_return _ _ _ _ Hlk). cbn zeta.
    split; [done|].
    destruct (Z.ltb_spec (wrap_int64 (jumpDepth t - 1)) 0);
      cbn [final Stack jumpDepth set_LastJump set_jumpDepth]; split; (done || lia).
  - split; [done|]. unfold captureJumpdest.
    rewrite final_bind. cbn [get]. rewrite Hlk, final_bind.
    pose proof (toInstruction_sameButIndex contract pc t) as H1.
    destruct (toInstruction contract pc t) as [i t1 o1|t1 o1]; cbn [final] in H1;
      destruct H1 as (_ & HS & _ & _ & _ & _ & HJ);
      [|left; by rewrite <- HS, <- HJ].
    rewrite final_bind.
    pose proof (toSourceMapping_final contract i t1) as H2.
    destruct (toSourceMapping contract i t1) as [[m|] t2 o2|t2 o2];
      cbn [final] in H2; subst t2; try (left; by rewrite <- HS, <- HJ).
    destruct (captureEntry_cases stack contract m t1) as [->|(fr & HS' & HJ')].
    + left. by rewrite <- HS, <- HJ.
    + right. cbn [Stack jumpDepth set_LastJump].
      rewrite HS', HJ', HS, HJ. split; [done|by eexists].
Qed.

(** C10.  After any trace of callbacks on a new tracer the jump depth is
    at least 0 (and at most the number of frames), provided the frame
    stack fits a Go slice; the jump depth moves at a JUMPDEST only; there
    it goes down, clamped at 0, when the JUMPDEST is a return, and up by
    one, with a frame pushed, when it is an entry. *)
Theorem jumpDepth_never_negative :
  (forall artifacts cbs t',
     run cbs (NewTracer artifacts) = Some t' ->
     fitsInt t' ->
     0 <= jumpDepth t' <= Z.of_nat (length (Stack t')))
  /\ (forall pc op memory stack contract depth t,
        op <> Op.JUMPDEST ->
        jumpDepth (final (CaptureState pc op memory stack contract depth t))
        = jumpDepth t)
  /\ (forall pc memory stack contract depth t,
        let t' := final (CaptureState pc Op.JUMPDEST memory stack contract depth t) in
        (Lookup (Stack t) (wrap_uint64 (pc - 1)) = true
         /\ jumpDepth t' = Z.max 0 (wrap_int64 (jumpDepth t - 1))
         /\ Stack t' = Stack t)
        \/ (Lookup (Stack t) (wrap_uint64 (pc - 1)) = false
            /\ ((jumpDepth t' = jumpDepth t /\ Stack t' = Stack t)
                \/ (jumpDepth t' = wrap_int64 (jumpDepth t + 1)
                    /\ exists frame, Stack t' = Stack t ++ [frame])))).
Proof.
  split; [|split].
  - intros artifacts cbs t' Hrun Hfit.
    destruct (run_depthKept _ _ _ Hrun) as [_ H].
    apply H; [|done]. unfold depthInv. simpl. lia.
  - apply jumpDepth_moves_at_JUMPDEST_only.
  - apply jumpDepth_at_JUMPDEST.
Qed.

(** ** The previous source mapping *)

Lemma sameSpan_false a b :
  sameSpan a b = false <->
  (SourceMapping.Start b, SourceMapping.Length b)
  <> (SourceMapping.Start a, SourceMapping.Length a).
Proof.
  unfold sameSpan. split.
  - intros H [= H1 H2]. rewrite H1, H2, !Z.eqb_refl in H. discriminate.
  - intros H. apply andb_false_iff.
    destruct (Z.eqb_spec (SourceMapping.Start a) (SourceMapping.Start b)) as [E1|];
      [|by left].
    destruct (Z.eqb_spec (SourceMapping.Length a) (SourceMapping.Length b)) as [E2|];
      [|by right].
    exfalso. apply H. by rewrite E1, E2.
Qed.

(** Walking back from [r] stops at the greatest ordinal at most [r]
    whose span differs. *)
Lemma walkBack_finds srcMap next j m : forall r,
  (j <= r < length srcMap)%nat ->
  srcMap !! j = Some m ->
  sameSpan next m = false ->
  (forall k mk, (j < k <= r)%nat -> srcMap !! k = Some mk -> sameSpan next mk = true) ->
  walkBack srcMap next r = Some m.
Proof.
  induction r as [|r IH]; intros Hr Hj Hm Hbetween.
  - assert (j = 0)%nat as -> by lia. cbn [walkBack]. by rewrite Hj, Hm.
  - cbn [walkBack].
    destruct (lookup_lt_is_Some_2 srcMap (S r)) as [mr Hmr]; [lia|]. rewrite Hmr.
    destruct (decide (j = S r)) as [->|Hne].
    + rewrite Hj in Hmr. injection Hmr as <-. by rewrite Hm.
    + rewrite (Hbetween (S r) mr) by (done || lia).
      apply IH; [lia|done|done|].
      intros k mk Hk. apply Hbetween. lia.
Qed.

(** Walking back from [r] panics when every span up to [r] is the
    same as the current one. *)
Lemma walkBack_runs_off srcMap next : forall r,
  (forall k mk, (k <= r)%nat -> srcMap !! k = Some mk -> sameSpan next mk = true) ->
  walkBack srcMap next r = None.
Proof.
  induction r as [|r IH]; intros Hsame; cbn [walkBack].
  - destruct (srcMap !! 0%nat) as [m0|] eqn:E; [|done].
    by rewrite (Hsame 0%nat m0).
  - destruct (srcMap !! S r) as [mr|] eqn:E; [|done].
    rewrite (Hsame (S r) mr) by done. apply IH.
    intros k mk Hk. apply Hsame. lia.
Qed.

(** C7, as amended.  For a contract with a decoded source map and an
    instruction ordinal [i] within it such that some earlier ordinal has
    a different (start, length) pair, [toPreviousSourceMapping] returns
    the mapping at the greatest such ordinal [j]. *)
Theorem previous_mapping contract t srcMap (i j : nat) next m :
  sourceMaps t !! key contract = Some srcMap ->
  Z.of_nat (length srcMap) <= max_int64 ->
  srcMap !! i = Some next ->
  (j < i)%nat ->
  srcMap !! j = Some m ->
  (SourceMapping.Start m, SourceMapping.Length m)
  <> (SourceMapping.Start next, SourceMapping.Length next) ->
  (forall k mk, (j < k < i)%nat -> srcMap !! k = Some mk ->
     (SourceMapping.Start mk, SourceMapping.Length mk)
     = (SourceMapping.Start next, SourceMapping.Length next)) ->
  toPreviousSourceMapping contract (Z.of_nat i) t = Returned (Some m) t [].
Proof.
  intros Hmap Hlen Hi Hji Hj Hm Hbetween.
  assert (Hilen : (i < length srcMap)%nat) by by apply lookup_lt_Some in Hi.
  unfold toPreviousSourceMapping, bindM, get. rewrite Hmap.
  unfold previousIn.
  rewrite wrap_int64_id by (unfold min_int64, max_int64 in *; lia).
  destruct (Z.leb_spec (Z.of_nat (length srcMap)) (Z.of_nat i)); [lia|].
  rewrite at_index_nat, Hi. cbn [mbind option_bind].
  assert (Hw : wrap_uint64 (Z.of_nat i - 1) = Z.of_nat (i - 1)).
  { unfold wrap_uint64. rewrite Z.mod_small; unfold max_int64 in *; lia. }
  rewrite Hw.
  destruct (Z.ltb_spec (Z.of_nat (i - 1)) (Z.of_nat (length srcMap))); [|lia].
  rewrite Nat2Z.id.
  rewrite (walkBack_finds srcMap next j m); [reflexivity|lia|done| |].
  - by apply sameSpan_false.
  - intros k mk Hk Hmk. specialize (Hbetween k mk ltac:(lia) Hmk).
    injection Hbetween as H1 H2. unfold sameSpan.
    by rewrite H1, H2, !Z.eqb_refl.
Qed.

(** X19.  When no earlier ordinal has a different pair (at ordinal 0
    always) the walk runs off the front of the source map, and
    [toPreviousSourceMapping] panics. *)
Lemma previous_mapping_missing contract t srcMap (i : nat) next :
  sourceMaps t !! key contract = Some srcMap ->
  Z.of_nat (length srcMap) <= max_int64 ->
  srcMap !! i = Some next ->
  (forall k mk, (k < i)%nat -> srcMap !! k = Some mk -> sameSpan next mk = true) ->
  toPreviousSourceMapping contract (Z.of_nat i) t = Panicked t [].
Proof.
  intros Hmap Hlen Hi Hsame.
  assert (Hilen : (i < length srcMap)%nat) by by apply lookup_lt_Some in Hi.
  unfold toPreviousSourceMapping, bindM, get. rewrite Hmap.
  unfold previousIn.
  rewrite wrap_int64_id by (unfold min_int64, max_int64 in *; lia).
  destruct (Z.leb_spec (Z.of_nat (length srcMap)) (Z.of_nat i)); [lia|].
  rewrite at_index_nat, Hi. cbn [mbind option_bind].
  destruct i as [|i].
  - change (wrap_uint64 (Z.of_nat 0 - 1)) with (2 ^ 64 - 1).
    destruct (Z.ltb_spec (2 ^ 64 - 1) (Z.of_nat (length srcMap)));
      [unfold max_int64 in *; lia|done].
  - assert (Hw : wrap_uint64 (Z.of_nat (S i) - 1) = Z.of_nat i).
    { unfold wrap_uint64. rewrite Z.mod_small; unfold max_int64 in *; lia. }
    rewrite Hw.
    destruct (Z.ltb_spec (Z.of_nat i) (Z.of_nat (length srcMap))); [|lia].
    rewrite Nat2Z.id, walkBack_runs_off; [done|].
    intros k mk Hk. apply Hsame. lia.
Qed.

(** ** Decoding integers *)

Lemma SetBytes_from bs : forall acc,
  0 <= acc ->
  0 <= fold_left (fun acc b => 256 * acc + Z.of_N (Byte.to_N b)) bs acc
    < (acc + 1) * 256 ^ Z.of_nat (length bs).
Proof.
  induction bs as [|b bs IH]; intros acc Hacc.
  - simpl. lia.
  - cbn [fold_left length]. rewrite Nat2Z.inj_succ, Z.pow_succ_r by lia.
    pose proof (Byte.to_N_bounded b) as Hb.
    specialize (IH (256 * acc + Z.of_N (Byte.to_N b)) ltac:(lia)).
    split; [lia|]. eapply Z.lt_le_trans; [apply IH|].
    assert (0 < 256 ^ Z.of_nat (length bs)) by (apply Z.pow_pos_nonneg; lia).
    nia.
Qed.

(** [SetBytes] reads the bytes as an unsigned number. *)
Lemma SetBytes_bound bs : 0 <= Go.SetBytes bs < 256 ^ Z.of_nat (length bs).
Proof.
  pose proof (SetBytes_from bs 0 ltac:(lia)) as H. unfold Go.SetBytes. lia.
Qed.

Lemma wrap_int64_add32 lo :
  0 <= lo <= wrap_int64 (lo + 32) -> wrap_int64 (lo + 32) = lo + 32.
Proof.
  intros H. pose proof (wrap_int64_range (lo + 32)) as Hr.
  destruct (Z_lt_le_dec (lo + 32) (2 ^ 63)) as [Hlt|Hge].
  - apply wrap_int64_id. unfold min_int64, max_int64. lia.
  - exfalso. assert (Hlo : lo < 2 ^ 63) by (unfold max_int64 in Hr; lia).
    clear Hr. unfold wrap_int64 in H.
    replace (lo + 32 + 2 ^ 63) with (lo + 32 - 2 ^ 63 + 1 * 2 ^ 64) in H by lia.
    rewrite Z_mod_plus_full, Z.mod_small in H; lia.
Qed.

(** A successful [input[offset : offset+32]] is the 32 bytes at
    [offset]. *)
Lemma slice_word input offset w :
  Go.slice input offset (wrap_int64 (offset + 32)) = Some w ->
  Go.elems w = take 32 (drop (Z.to_nat offset) (Go.elems input ++ Go.spare input))
  /\ length (Go.elems w) = 32%nat.
Proof.
  unfold Go.slice, Go.cap.
  destruct (Z.leb_spec 0 offset); [|discriminate].
  destruct (Z.leb_spec offset (wrap_int64 (offset + 32))); [|discriminate].
  rewrite wrap_int64_add32 in * by lia.
  destruct (Z.leb_spec (offset + 32)
              (Z.of_nat (length (Go.elems input) + length (Go.spare input))));
    [|discriminate].
  cbn [andb]. intros [= <-]. cbn [Go.elems].
  replace (Z.to_nat (offset + 32 - offset)) with 32%nat by lia.
  split; [done|]. rewrite length_take, length_drop, length_app. lia.
Qed.

(** C6, as amended.  A parameter whose type string begins with [int] or
    with [uint] is printed the same way: in buffer mode as the decimal
    form of the 32-byte word read as an unsigned big-endian number, in
    stack mode as the decimal form of the stack word. *)
Theorem integers_decoded_unsigned node :
  Go.HasPrefix (AstNode.TypeString node) "int" = true
  \/ Go.HasPrefix (AstNode.TypeString node) "uint" = true ->
  (forall offset input w,
     Go.slice input offset (wrap_int64 (offset + 32)) = Some w ->
     DecodeParam node offset input
     = Some ((AstNode.Name node ++ " = " ++ Go.decimal (Go.SetBytes (Go.elems w)))%string,
             32)
     /\ Go.elems w
        = take 32 (drop (Z.to_nat offset) (Go.elems input ++ Go.spare input))
     /\ 0 <= Go.SetBytes (Go.elems w) < 2 ^ 256)
  /\ (forall item,
        DecodeStack node item
        = (AstNode.Name node ++ " = " ++ Go.decimal item)%string).
Proof.
  intros Hty.
  assert (Hint : isInteger (AstNode.TypeString node) = true).
  { unfold isInteger. apply orb_true_iff. exact Hty. }
  split.
  - intros offset input w Hw. unfold DecodeParam. rewrite Hint, Hw.
    split; [reflexivity|].
    destruct (slice_word _ _ _ Hw) as [He Hl]. split; [done|].
    pose proof (SetBytes_bound (Go.elems w)) as Hb. rewrite Hl in Hb.
    change (256 ^ Z.of_nat 32) with (2 ^ 256) in Hb. exact Hb.
  - intros item. unfold DecodeStack. by rewrite Hint.
Qed.

(** ** Unresolved calls and short inputs *)

Lemma bind_ret {A B} (a : A) (k : A -> M B) t : bindM (ret a) k t = k a t.
Proof. unfold bindM, ret. by destruct (k a t). Qed.

Lemma find_all_false {A} (f : A -> bool) (l : list A) :
  (forall x, x ∈ l -> f x = false) -> List.find f l = None.
Proof.
  induction l as [|x l IH]; intros H; [done|]. cbn [List.find].
  rewrite (H x) by (apply elem_of_cons; by left).
  apply IH. intros y Hy. apply H. apply elem_of_cons. by right.
Qed.

(** Slicing [data[:4]] again gives the same four bytes. *)
Lemma slice_again data receiver :
  Go.slice data 0 4 = Some receiver -> Go.slice receiver 0 4 = Some receiver.
Proof.
  unfold Go.slice, Go.cap. cbn [Z.leb Z.compare andb].
  destruct (Z.leb_spec 4 (Z.of_nat (length (Go.elems data) + length (Go.spare data))))
    as [Hcap|]; [|discriminate].
  intros [= <-]. cbn [Go.elems Go.spare].
  change (Z.to_nat 0) with 0%nat. change (Z.to_nat (4 - 0)) with 4%nat.
  rewrite !drop_0, take_drop.
  rewrite length_take, length_drop, length_app.
  destruct (Z.leb_spec 4 (Z.of_nat
    (4 `min` (length (Go.elems data) + length (Go.spare data))
     + (length (Go.elems data) + length (Go.spare data) - 4)))); [done|lia].
Qed.

(** [findFnDef] answers nil when the address has no artifact or no
    function definition of the artifact has the selector. *)
Lemma findFnDef_unresolved addr data receiver t :
  Go.slice data 0 4 = Some receiver ->
  match contracts t !! Go.ToLower addr with
  | None => True
  | Some target =>
      forall fnDef, fnDef ∈ DiscoverFunctionDefinitions (TruffleContract.Ast target) ->
                    Receiver fnDef <> Go.hex (Go.elems receiver)
  end ->
  findFnDef addr receiver t = Returned None t [].
Proof.
  intros Hs Hno. unfold findFnDef, bindM, get.
  destruct (contracts t !! Go.ToLower addr) as [target|]; [|done].
  rewrite (slice_again _ _ Hs). cbn [orPanic ret app].
  rewrite find_all_false; [done|].
  intros fnDef Hin. apply String.eqb_neq. by apply Hno.
Qed.


(** C4.  At a call opcode whose target has no artifact, or whose selector
    matches no function definition of the target, [findFnDef] answers nil
    and the callback panics on [fnDef.Parameters]: no frame is pushed and
    the callback does not return. *)
Theorem call_unresolved_panics op pc memory stack contract depth t
        addr offset size receiver :
  op ∈ [Op.CALL; Op.CALLCODE; Op.STATICCALL; Op.DELEGATECALL] ->
  Back stack 1 = Some addr ->
  Back stack 3 = Some offset ->
  Back stack 4 = Some size ->
  Go.slice (MemoryGet memory (Go.Int64 offset) (Go.Int64 size)) 0 4 = Some receiver ->
  match contracts t !! Go.ToLower (AddressString (BigToAddress addr)) with
  | None => True
  | Some target =>
      forall fnDef, fnDef ∈ DiscoverFunctionDefinitions (TruffleContract.Ast target) ->
                    Receiver fnDef <> Go.hex (Go.elems receiver)
  end ->
  CaptureState pc op memory stack contract depth t
  = Panicked (set_LastJump None t) [].
Proof.
  intros Hop H1 H3 H4 Hs Hno.
  rewrite CaptureState_call.
  2:{ repeat (apply elem_of_cons in Hop as [->|Hop]); try reflexivity.
      by apply elem_of_nil in Hop. }
  unfold defer, captureCall.
  rewrite H1. cbn [orPanic]. rewrite bind_ret.
  rewrite H3. cbn [orPanic]. rewrite bind_ret.
  rewrite H4. cbn [orPanic]. rewrite bind_ret.
  rewrite Hs. cbn [orPanic]. rewrite bind_ret.
  rewrite (bind_returned _ _ _ _ _ _ (findFnDef_unresolved _ _ _ _ Hs Hno)).
  reflexivity.
Qed.

(** C5.  [CaptureStart] on a callee with an artifact and an input whose
    capacity is below 4 (so shorter than 4 bytes) panics on
    [input[:4]]: the callback does not return. *)
Theorem start_short_input_panics to input t target :
  contracts t !! Go.ToLower (AddressString to) = Some target ->
  Go.cap input < 4 ->
  CaptureStart to input t = Panicked t [].
Proof.
  intros Hc Hcap. unfold CaptureStart, bindM, get. rewrite Hc.
  unfold Go.slice. cbn [Z.leb Z.compare andb].
  destruct (Z.leb_spec 4 (Go.cap input)); [lia|]. reflexivity.
Qed.

(** ** The frame stack, further *)

Lemma Lookup_Push s frame pc :
  Lookup (Push s frame) pc = Lookup s pc || (CallFrame.PC frame =? pc).
Proof.
  apply eq_true_iff_eq. rewrite orb_true_iff, !Lookup_spec, Z.eqb_eq.
  unfold Push. split.
  - intros (f & Hin & Hpc). apply elem_of_app in Hin as [Hin|Hin].
    + left. by exists f.
    + right. apply elem_of_cons in Hin as [->|Hin]; [done|].
      by apply elem_of_nil in Hin.
  - intros [(f & Hin & Hpc)|Hpc].
    + exists f. split; [|done]. apply elem_of_app. by left.
    + exists frame. split; [|done]. apply elem_of_app. right.
      apply elem_of_cons. by left.
Qed.

(** X1.  [CallStack.Lookup] answers true exactly when some frame of the
    stack records the program counter asked for; on the empty stack it
    answers false, and after a [Push] it answers for the old stack or for
    the new frame. *)
Theorem Lookup_finds_recorded_pc (s : CallStack) pc :
  (Lookup s pc = true <-> exists f, f ∈ s /\ CallFrame.PC f = pc)
  /\ Lookup [] pc = false
  /\ (forall frame,
        Lookup (Push s frame) pc = Lookup s pc || (CallFrame.PC frame =? pc)).
Proof.
  split; [apply Lookup_spec|]. split; [reflexivity|].
  intros frame. apply Lookup_Push.
Qed.

(** X2.  [Pop] undoes [Push] and [Peek] reads the frame pushed last; on
    the empty stack [Pop] panics and [Peek] answers nil. *)
Theorem Pop_undoes_Push (s : CallStack) frame :
  Pop (Push s frame) = Some s
  /\ Peek (Push s frame) = Some frame
  /\ Pop [] = None
  /\ Peek [] = None.
Proof.
  unfold Pop, Peek, Push. repeat split.
  - destruct (decide (length (s ++ [frame]) = 0%nat)) as [E|_].
    + rewrite length_app in E. simpl in E. lia.
    + f_equal. rewrite length_app. simpl.
      replace (length s + 1 - 1)%nat with (length s) by lia.
      by rewrite take_app_length.
  - destruct (decide (length (s ++ [frame]) = 0%nat)) as [E|_].
    + rewrite length_app in E. simpl in E. lia.
    + rewrite length_app. simpl.
      replace (length s + 1 - 1)%nat with (length s) by lia.
      by apply list_lookup_middle.
Qed.

(** ** The lookups, further *)

(** What [toInstruction] returns and what it leaves cached. *)
Lemma toInstruction_index contract pc t :
  exists i t1 out pcToI,
    toInstruction contract pc t = Returned i t1 out
    /\ sameButIndex t t1
    /\ pcToI = default (InstructionByBytecodePosition (VMContract.Code contract))
                       (instructionMaps t !! key contract)
    /\ instructionMaps t1 = <[key contract := pcToI]> (instructionMaps t)
    /\ i = default 0 (pcToI !! pc)
    /\ out = (match pcToI !! pc with Some _ => [] | None => [MissingToInstruction] end)
    /\ (forall contract' pc',
          key contract' = key contract ->
          toInstruction contract' pc' t1
          = Returned (default 0 (pcToI !! pc')) t1
                     (match pcToI !! pc' with Some _ => [] | None => [MissingToInstruction] end)).
Proof.
  assert (Hagain : forall pcToI t1 contract' pc',
            instructionMaps t1 !! key contract = Some pcToI ->
            key contract' = key contract ->
            toInstruction contract' pc' t1
            = Returned (default 0 (pcToI !! pc')) t1
                       (match pcToI !! pc' with Some _ => [] | None => [MissingToInstruction] end)).
  { intros pcToI t1 contract' pc' Hc Hk. unfold toInstruction, bindM, get.
    rewrite Hk, Hc. cbn [ret]. by destruct (pcToI !! pc'). }
  destruct (instructionMaps t !! key contract) as [m|] eqn:Hc.
  - exists (default 0 (m !! pc)), t, (match m !! pc with Some _ => [] | None => [MissingToInstruction] end), m.
    split; [by apply Hagain|]. split; [reflexivity|]. split; [done|].
    split; [by rewrite insert_id|]. split; [done|]. split; [done|].
    intros contract' pc' Hk. by apply Hagain.
  - set (m := InstructionByBytecodePosition (VMContract.Code contract)).
    set (t1 := set_instructionMaps (<[key contract := m]> (instructionMaps t)) t).
    exists (default 0 (m !! pc)), t1, (match m !! pc with Some _ => [] | None => [MissingToInstruction] end), m.
    split.
    { unfold toInstruction, bindM, get. rewrite Hc. cbn [modify ret].
      fold m. fold t1. by destruct (m !! pc). }
    split; [apply sameButIndex_index|]. split; [done|]. split; [done|].
    split; [done|]. split; [done|].
    intros contract' pc' Hk. apply Hagain; [|done].
    subst t1. cbn [instructionMaps set_instructionMaps]. apply lookup_insert_eq.
Qed.

(** X3.  [toInstruction] never panics.  It builds the instruction index of
    an address on first use and keeps it: the ordinal is read from the
    cached index (0, with one line printed, for a program counter that is
    not in it), and every later call for the same address, whatever code
    the contract carries, reads the same index and leaves the tracer as it
    is. *)
Theorem toInstruction_caches contract pc t :
  exists i t1 out pcToI,
    toInstruction contract pc t = Returned i t1 out
    /\ sameButIndex t t1
    /\ pcToI = default (InstructionByBytecodePosition (VMContract.Code contract))
                       (instructionMaps t !! key contract)
    /\ instructionMaps t1 = <[key contract := pcToI]> (instructionMaps t)
    /\ i = default 0 (pcToI !! pc)
    /\ out = (match pcToI !! pc with Some _ => [] | None => [MissingToInstruction] end)
    /\ (forall contract' pc',
          key contract' = key contract ->
          toInstruction contract' pc' t1
          = Returned (default 0 (pcToI !! pc')) t1
                     (match pcToI !! pc' with Some _ => [] | None => [MissingToInstruction] end)).
Proof. apply toInstruction_index. Qed.

(** X4.  For an ordinal that fits an [int], [toSourceMapping] returns the
    mapping at that ordinal and nil when the contract has no source map or
    the ordinal is at or past its end; it neither panics nor touches the
    tracer. *)
Theorem toSourceMapping_in_bounds contract instruction t :
  0 <= instruction <= max_int64 ->
  toSourceMapping contract instruction t
  = Returned (srcMap ← sourceMaps t !! key contract; srcMap !! Z.to_nat instruction)
             t [].
Proof.
  intros Hi. unfold toSourceMapping, bindM, get.
  destruct (sourceMaps t !! key contract) as [srcMap|]; [|reflexivity].
  cbn [mbind option_bind].
  rewrite wrap_int64_id by (unfold min_int64, max_int64 in *; lia).
  destruct (Z.leb_spec (Z.of_nat (length srcMap)) instruction) as [Hge|Hlt].
  - rewrite (proj2 (lookup_ge_None srcMap (Z.to_nat instruction))) by lia.
    reflexivity.
  - replace instruction with (Z.of_nat (Z.to_nat instruction)) at 1 by lia.
    rewrite at_index_nat.
    destruct (lookup_lt_is_Some_2 srcMap (Z.to_nat instruction)) as [m ->]; [lia|].
    reflexivity.
Qed.

(** X5.  [toPreviousSourceMapping] answers nil, without a panic, for a
    contract with no source map and for an ordinal at or past the end of
    the map. *)
Theorem toPreviousSourceMapping_nil contract instruction t :
  match sourceMaps t !! key contract with
  | None => True
  | Some srcMap => Z.of_nat (length srcMap) <= instruction <= max_int64
  end ->
  toPreviousSourceMapping contract instruction t = Returned None t [].
Proof.
  intros H. unfold toPreviousSourceMapping, bindM, get.
  destruct (sourceMaps t !! key contract) as [srcMap|]; [|reflexivity].
  unfold previousIn.
  rewrite wrap_int64_id by (unfold min_int64, max_int64 in *; lia).
  destruct (Z.leb_spec (Z.of_nat (length srcMap)) instruction); [reflexivity|lia].
Qed.

(** ** The buffer decoder, further *)

Lemma BytesToAddress_SetBytes bs : BytesToAddress bs = BigToAddress (Go.SetBytes bs).
Proof.
  unfold BytesToAddress, BigToAddress.
  rewrite Z.abs_eq; [done|]. apply SetBytes_bound.
Qed.

(** Whatever the type, a parameter read from a word of the buffer is
    printed as [DecodeStack] prints the number the word holds. *)
Lemma DecodeParam_word node offset input w :
  Go.slice input offset (wrap_int64 (offset + 32)) = Some w ->
  DecodeParam node offset input
  = Some (DecodeStack node (Go.SetBytes (Go.elems w)), 32).
Proof.
  intros Hw. unfold DecodeParam, DecodeStack. rewrite Hw. cbn [mbind option_bind].
  destruct (isInteger _); [done|].
  destruct (String.eqb _ "address"); [by rewrite BytesToAddress_SetBytes|].
  destruct (String.eqb _ "bool"); [|done].
  by destruct (0 <? _).
Qed.

Lemma slice_word_succeeds input offset :
  0 <= offset -> offset + 32 <= max_int64 -> offset + 32 <= Go.cap input ->
  exists w, Go.slice input offset (wrap_int64 (offset + 32)) = Some w
            /\ Go.elems w = wordAt input offset.
Proof.
  intros H0 Hmax Hcap. unfold Go.slice.
  rewrite wrap_int64_id by (unfold min_int64, max_int64 in *; lia).
  destruct (Z.leb_spec 0 offset); [|lia].
  destruct (Z.leb_spec offset (offset + 32)); [|lia].
  destruct (Z.leb_spec (offset + 32) (Go.cap input)); [|lia].
  cbn [andb]. eexists. split; [reflexivity|]. cbn [Go.elems]. unfold wordAt.
  by replace (Z.to_nat (offset + 32 - offset)) with 32%nat by lia.
Qed.

Lemma slice_word_fails input offset :
  offset + 32 <= max_int64 -> Go.cap input < offset + 32 ->
  Go.slice input offset (wrap_int64 (offset + 32)) = None.
Proof.
  intros Hmax Hcap. unfold Go.slice.
  destruct (Z.leb_spec 0 offset); [|done].
  rewrite wrap_int64_id by (unfold min_int64, max_int64 in *; lia).
  destruct (Z.leb_spec (offset + 32) (Go.cap input)); [lia|].
  by rewrite andb_false_r.
Qed.

Lemma DecodeParam_unsupported node offset input :
  supported (AstNode.TypeString node) = false ->
  DecodeParam node offset input = Some (EmptyString, 32).
Proof.
  unfold supported, DecodeParam. intros H.
  apply orb_false_elim in H as [H Hb]. apply orb_false_elim in H as [Hi Ha].
  by rewrite Hi, Ha, Hb.
Qed.

(** X6.  Buffer mode and stack mode agree: a parameter decoded from the
    32 bytes at [offset] is printed exactly as [DecodeStack] prints the
    number those bytes hold (big-endian, unsigned), for every type, and
    the offset advances by 32. *)
Theorem buffer_mode_agrees_with_stack_mode node offset input w :
  Go.slice input offset (wrap_int64 (offset + 32)) = Some w ->
  DecodeParam node offset input
  = Some (DecodeStack node (Go.SetBytes (Go.elems w)), 32)
  /\ Go.elems w = wordAt input offset.
Proof.
  intros Hw. split; [by apply DecodeParam_word|].
  unfold wordAt. by destruct (slice_word _ _ _ Hw).
Qed.

(** X7.  [DecodeParam] panics exactly when the type is one it prints
    ([int...], [uint...], [address], [bool]) and fewer than [offset + 32]
    bytes lie within the capacity of the input; for any other type it
    reads nothing and answers the empty string and 32, so a short input
    does no harm there. *)
Theorem DecodeParam_panics_iff node offset input :
  0 <= offset -> offset + 32 <= max_int64 ->
  (DecodeParam node offset input = None
   <-> supported (AstNode.TypeString node) = true /\ Go.cap input < offset + 32)
  /\ (supported (AstNode.TypeString node) = false ->
      DecodeParam node offset input = Some (EmptyString, 32)).
Proof.
  intros H0 Hmax. split; [|apply DecodeParam_unsupported].
  destruct (supported (AstNode.TypeString node)) eqn:Hs.
  - destruct (Z_lt_le_dec (Go.cap input) (offset + 32)) as [Hlt|Hge].
    + split; [done|]. intros _. unfold DecodeParam.
      rewrite (slice_word_fails _ _ Hmax Hlt). cbn [mbind option_bind].
      unfold supported in Hs.
      destruct (isInteger _); [done|].
      destruct (String.eqb _ "address"); [done|].
      destruct (String.eqb _ "bool"); [done|discriminate].
    + destruct (slice_word_succeeds input offset H0 Hmax Hge) as (w & Hw & _).
      rewrite (DecodeParam_word _ _ _ _ Hw). split; [discriminate|]. lia.
  - rewrite (DecodeParam_unsupported _ _ _ Hs). split; [discriminate|].
    intros [? _]. discriminate.
Qed.

Lemma decodeParams_words nodes : forall offset input params,
  0 <= offset ->
  offset + 32 * Z.of_nat (length nodes) <= Go.cap input ->
  Go.cap input <= max_int64 ->
  decodeParams nodes offset input params
  = Some (params ++ filter (fun p => p <> EmptyString)
            (imap (fun k node =>
                     DecodeStack node
                       (Go.SetBytes (wordAt input (offset + 32 * Z.of_nat k))))
                  nodes)).
Proof.
  induction nodes as [|node nodes IH]; intros offset input params H0 Hcap Hmax.
  - cbn [decodeParams imap]. by rewrite filter_nil, app_nil_r.
  - cbn [decodeParams imap length] in *.
    destruct (slice_word_succeeds input offset) as (w & Hw & He); [lia..|].
    rewrite (DecodeParam_word _ _ _ _ Hw), He.
    rewrite wrap_int64_id by (unfold min_int64, max_int64 in *; lia).
    replace (offset + 32 * Z.of_nat 0) with offset by lia.
    assert (Hrest : imap
              ((fun k node => DecodeStack node
                  (Go.SetBytes (wordAt input (offset + 32 * Z.of_nat k)))) ∘ S) nodes
            = imap (fun k node => DecodeStack node
                  (Go.SetBytes (wordAt input (offset + 32 + 32 * Z.of_nat k)))) nodes).
    { apply imap_ext. intros k x _. cbn [compose]. do 3 f_equal. lia. }
    rewrite Hrest.
    destruct (String.eqb_spec
                (DecodeStack node (Go.SetBytes (wordAt input offset))) EmptyString)
      as [E|E].
    + rewrite IH by lia. by rewrite filter_cons_False by (intros H; by apply H).
    + rewrite IH by lia. rewrite filter_cons_True by done.
      by rewrite <- app_assoc.
Qed.

(** X8.  The loop that decodes the parameters of a call reads parameter
    [k] from the 32 bytes at [offset + 32 k], whether or not the earlier
    parameters were printed, and returns the non-empty strings in
    parameter order; it does not panic when the capacity of the input
    covers all the words. *)
Theorem decodeParams_reads_consecutive_words nodes offset input :
  0 <= offset ->
  offset + 32 * Z.of_nat (length nodes) <= Go.cap input ->
  Go.cap input <= max_int64 ->
  decodeParams nodes offset input []
  = Some (filter (fun p => p <> EmptyString)
            (imap (fun k node =>
                     DecodeStack node
                       (Go.SetBytes (wordAt input (offset + 32 * Z.of_nat k))))
                  nodes)).
Proof.
  intros H0 Hcap Hmax. by rewrite (decodeParams_words nodes offset input []).
Qed.

(** ** [CaptureStart], further *)

Lemma lineLoop_counts rest : forall i start l c,
  i <= start -> start - i <= Z.of_nat (String.length rest) ->
  exists c',
    lineLoop rest i start l c
    = Some (l + Z.of_nat (newlinesBefore rest (Z.to_nat (start - i))), c').
Proof.
  induction rest as [|ch rest IH]; intros i start l c Hi Hlen.
  - cbn [String.length] in Hlen. cbn [lineLoop].
    destruct (Z.ltb_spec i start); [lia|]. exists c.
    unfold newlinesBefore. cbn [list_ascii_of_string]. rewrite take_nil.
    cbn [filter list_filter length]. do 2 f_equal. lia.
  - cbn [String.length] in Hlen. cbn [lineLoop].
    destruct (Z.ltb_spec i start) as [Hlt|Hge].
    + replace (Z.to_nat (start - i)) with (S (Z.to_nat (start - (i + 1)))) by lia.
      unfold newlinesBefore. cbn [list_ascii_of_string take].
      destruct (Ascii.eqb_spec ch newline) as [E|E].
      * destruct (IH (i + 1) start (l + 1) (0 + 1)) as [c' ->]; [lia..|].
        exists c'. rewrite filter_cons_True by done. cbn [length].
        unfold newlinesBefore. do 2 f_equal. lia.
      * destruct (IH (i + 1) start l (c + 1)) as [c' ->]; [lia..|].
        exists c'. by rewrite filter_cons_False by done.
    + exists c. replace (Z.to_nat (start - i)) with 0%nat by lia.
      unfold newlinesBefore. rewrite take_0. cbn [filter list_filter length].
      do 2 f_equal. lia.
Qed.

Lemma lineLoop_overruns rest : forall i start l c,
  Z.of_nat (String.length rest) < start - i -> lineLoop rest i start l c = None.
Proof.
  induction rest as [|ch rest IH]; intros i start l c Hlen;
    cbn [String.length] in Hlen; cbn [lineLoop];
    (destruct (Z.ltb_spec i start); [|lia]); [done|].
  destruct (Ascii.eqb ch newline); apply IH; lia.
Qed.

(** X9.  The line-counting loop of [CaptureStart] yields 1 plus the number
    of line terminators among the first [start] bytes of the source; it
    panics when [start] lies past the end of the source, and it yields
    line 1 when [start] is 0 or negative. *)
Theorem lineLoop_counts_newlines src start :
  (0 <= start <= Z.of_nat (String.length src) ->
   exists c, lineLoop src 0 start 1 1
             = Some (1 + Z.of_nat (newlinesBefore src (Z.to_nat start)), c))
  /\ (Z.of_nat (String.length src) < start -> lineLoop src 0 start 1 1 = None)
  /\ (start <= 0 -> lineLoop src 0 start 1 1 = Some (1, 1)).
Proof.
  split; [|split].
  - intros H. destruct (lineLoop_counts src 0 start 1 1) as [c Hc]; [lia..|].
    exists c. by rewrite Z.sub_0_r in Hc.
  - intros H. apply lineLoop_overruns. lia.
  - intros H. destruct src; cbn [lineLoop];
      by destruct (Z.ltb_spec 0 start); [lia|].
Qed.

Lemma startLoop_no_match contract to input target fnDefs t :
  (forall fnDef, fnDef ∈ fnDefs -> Receiver fnDef <> target) ->
  startLoop contract to input target fnDefs t = Returned tt t [].
Proof.
  induction fnDefs as [|fnDef rest IH]; intros Hno; cbn [startLoop]; [done|].
  destruct (String.eqb_spec (Receiver fnDef) target) as [E|_].
  - exfalso. apply (Hno fnDef); [|done]. apply elem_of_cons. by left.
  - cbn [negb]. apply IH. intros d Hd. apply Hno. apply elem_of_cons. by right.
Qed.

(** X10.  [CaptureStart] returns and leaves the tracer as it is when the
    callee has no artifact (whatever the input, even an empty one), and
    when the input has capacity for a selector that no public function
    definition of the callee has. *)
Theorem CaptureStart_unresolved to input t :
  match contracts t !! Go.ToLower (AddressString to) with
  | None => True
  | Some contract =>
      exists sel,
        Go.slice input 0 4 = Some sel
        /\ forall fnDef,
             fnDef ∈ DiscoverFunctionDefinitions (TruffleContract.Ast contract) ->
             Receiver fnDef <> Go.hex (Go.elems sel)
  end ->
  CaptureStart to input t = Returned tt t [].
Proof.
  intros H. unfold CaptureStart, bindM, get.
  destruct (contracts t !! Go.ToLower (AddressString to)) as [contract|]; [|done].
  destruct H as (sel & -> & Hno). cbn [orPanic ret].
  by rewrite startLoop_no_match.
Qed.

Lemma set_Stack_same t : set_Stack (Stack t ++ []) t = t.
Proof. rewrite app_nil_r. by destruct t. Qed.

Lemma startLoop_returned contract to input target fnDefs : forall t t' out,
  startLoop contract to input target fnDefs t = Returned tt t' out ->
  exists frames,
    t' = set_Stack (Stack t ++ frames) t /\ out = []
    /\ Forall2 (fun fnDef frame => startFrame contract to input fnDef = Some frame)
               (filter (fun d => Receiver d = target) fnDefs) frames.
Proof.
  induction fnDefs as [|fnDef rest IH]; intros t t' out; cbn [startLoop].
  - intros [= <- <-]. exists []. rewrite set_Stack_same.
    split; [done|]. split; [done|]. rewrite filter_nil. constructor.
  - destruct (String.eqb_spec (Receiver fnDef) target) as [E|E]; cbn [negb].
    + rewrite filter_cons_True by done.
      unfold bindM. destruct (startFrame contract to input fnDef) as [frame|] eqn:Hf;
        cbn [orPanic ret panic push modify]; [|discriminate].
      destruct (startLoop _ _ _ _ rest _) as [[] t2 o2|t2 o2] eqn:Hrest;
        [|discriminate].
      intros [= <- <-]. destruct (IH _ _ _ Hrest) as (frames & -> & -> & Hall).
      exists (frame :: frames). split.
      { unfold set_Stack, Push. simpl. by rewrite <- app_assoc. }
      split; [done|]. by constructor.
    + rewrite filter_cons_False by done. apply IH.
Qed.

Lemma startFrame_fields contract to input fnDef frame :
  startFrame contract to input fnDef = Some frame ->
  CallFrame.Contract frame = Go.ToLower (AddressString to)
  /\ CallFrame.Instruction frame = 0 /\ CallFrame.Depth frame = 0
  /\ CallFrame.PC frame = 0
  /\ decodeParams (AstNode.Parameters fnDef) 4 input []
     = Some (CallFrame.Params frame).
Proof.
  unfold startFrame.
  destruct (Go.Split _ _) as [|part0 [|part1 parts]]; [discriminate..|].
  destruct (Go.Atoi part0) as [start ok]. destruct ok; [|discriminate].
  cbn [negb]. destruct (Go.Atoi part1) as [len _].
  destruct (lineLoop _ _ _ _ _) as [[l c]|]; [|discriminate].
  cbn [mbind option_bind].
  destruct (decodeParams _ _ _ _) as [params|]; [|discriminate].
  cbn [mbind option_bind].
  destruct (Go.substr _ _ _) as [source|]; [|discriminate].
  cbn [mbind option_bind]. by intros [= <-].
Qed.

(** X11.  When [CaptureStart] returns, it has appended one frame for each
    public function definition whose selector equals the first four bytes
    of the input, in the order of the definitions and not only for the
    first one, and has changed nothing else; each of these frames names the
    lower-cased callee and has instruction 0, depth 0 and program counter
    0. *)
Theorem CaptureStart_pushes_every_match to input t t' out :
  CaptureStart to input t = Returned tt t' out ->
  exists frames,
    t' = set_Stack (Stack t ++ frames) t /\ out = []
    /\ Forall (fun frame =>
                 CallFrame.Contract frame = Go.ToLower (AddressString to)
                 /\ CallFrame.Instruction frame = 0
                 /\ CallFrame.Depth frame = 0
                 /\ CallFrame.PC frame = 0) frames
    /\ match contracts t !! Go.ToLower (AddressString to) with
       | None => frames = []
       | Some contract =>
           exists sel,
             Go.slice input 0 4 = Some sel
             /\ Forall2 (fun fnDef frame =>
                           startFrame contract to input fnDef = Some frame)
                        (filter (fun d => Receiver d = Go.hex (Go.elems sel))
                           (DiscoverFunctionDefinitions
                              (TruffleContract.Ast contract)))
                        frames
       end.
Proof.
  unfold CaptureStart, bindM, get.
  destruct (contracts t !! Go.ToLower (AddressString to)) as [contract|].
  - destruct (Go.slice input 0 4) as [sel|]; cbn [orPanic ret panic];
      [|discriminate].
    destruct (startLoop _ _ _ _ _ _) as [[] t2 o2|t2 o2] eqn:Hloop; [|discriminate].
    intros [= <- <-]. destruct (startLoop_returned _ _ _ _ _ _ _ _ Hloop)
      as (frames & -> & -> & Hall).
    exists frames. split; [done|]. split; [done|]. split; [|by exists sel].
    apply (Forall2_Forall_r _ _ _ _ Hall). apply Forall_forall.
    intros fnDef _ frame Hf.
    destruct (startFrame_fields _ _ _ _ _ Hf) as (?&?&?&?&_). by repeat split.
  - intros [= <- <-]. exists []. by rewrite set_Stack_same.
Qed.

(** ** The call opcodes, further *)







(** Without an artifact the source of a frame is the sentinel. *)
Lemma sourceOf_untraced contract mapping t :
  contracts t !! key contract = None ->
  sourceOf contract mapping t = Returned "N/A"%string t [].
Proof. intros H. unfold sourceOf, bindM, get. by rewrite H. Qed.




(** ** The output loop *)

Lemma Repeat_fits c depth :
  0 <= depth <= max_int64 - 2 ->
  Repeat c (wrap_int64 (wrap_uint64 (depth + 2)))
  = Some (string_of_list_ascii (replicate (Z.to_nat (depth + 2)) c)).
Proof.
  intros H. unfold Repeat, wrap_uint64.
  rewrite Z.mod_small by (unfold max_int64 in *; lia).
  rewrite wrap_int64_id by (unfold min_int64, max_int64 in *; lia).
  by destruct (Z.ltb_spec (depth + 2) 0); [lia|].
Qed.

Lemma printFrames_all artifacts stack :
  Forall (fun frame => hasArtifact artifacts frame
                       /\ 0 <= CallFrame.Depth frame <= max_int64 - 2) stack ->
  exists lines,
    printFrames artifacts stack = (lines, true)
    /\ Forall2 (fun frame line => frameLine artifacts frame = Some line) stack lines.
Proof.
  induction 1 as [|frame stack [[contract Hc] Hd] _ (lines & IH & Hall)].
  - exists []. split; [done|constructor].
  - assert (Hline : is_Some (frameLine artifacts frame)).
    { unfold frameLine. rewrite Hc. cbn [mbind option_bind].
      rewrite (Repeat_fits _ _ Hd). by eexists. }
    destruct Hline as [line Hline]. exists (line :: lines).
    cbn [printFrames]. rewrite Hline, IH. split; [done|by constructor].
Qed.

(** X13.  The output loop of [main] prints one line for each frame, in
    stack order, when every frame names a contract of the artifact set and
    has a depth that leaves room for two more tabs.  It panics at the first
    frame whose contract has no artifact, having printed the lines of the
    frames before it. *)
Theorem printFrames_needs_artifacts artifacts before frame after :
  Forall (fun frame => hasArtifact artifacts frame
                       /\ 0 <= CallFrame.Depth frame <= max_int64 - 2) before ->
  (exists lines,
     printFrames artifacts before = (lines, true)
     /\ Forall2 (fun frame line => frameLine artifacts frame = Some line)
                before lines
     /\ (artifacts !! CallFrame.Contract frame = None ->
         printFrames artifacts (before ++ frame :: after) = (lines, false))).
Proof.
  intros Hall. destruct (printFrames_all _ _ Hall) as (lines & Hp & H2).
  exists lines. split; [done|]. split; [done|]. intros Hnone.
  clear Hall. revert lines Hp H2.
  induction before as [|b before IH]; intros lines Hp H2.
  - cbn [printFrames] in Hp. injection Hp as <-. cbn [app printFrames].
    unfold frameLine. by rewrite Hnone.
  - cbn [app printFrames] in *.
    destruct (frameLine artifacts b) as [line|]; [|discriminate].
    destruct (printFrames artifacts before) as [ls ok] eqn:Hb.
    injection Hp as <- ->. inversion H2 as [|? ? ? ? _ H2']; subst.
    by rewrite (IH ls eq_refl H2').
Qed.

(** ** JUMP and the JUMPDEST after it, further *)

(** X14.  A JUMP in a contract with no artifact and no source map is
    recorded all the same: the callback returns, the frame stack and the
    jump depth are as they were, and the pending frame holds the
    lower-cased address, the instruction ordinal, the program counter, the
    depth [uint64(depth) + uint64(jumpDepth)], the source "N/A" and line
    0. *)
Theorem jump_in_untraced_contract pc memory stack contract depth t :
  contracts t !! key contract = None ->
  sourceMaps t !! key contract = None ->
  exists i t1 out,
    toInstruction contract pc t = Returned i t1 out
    /\ CaptureState pc Op.JUMP memory stack contract depth t
       = Returned tt
           (set_LastJump
              (Some {| CallFrame.Contract := key contract;
                       CallFrame.Instruction := i;
                       CallFrame.Source := "N/A";
                       CallFrame.Line := 0;
                       CallFrame.PC := pc;
                       CallFrame.Depth := frameDepth depth (jumpDepth t);
                       CallFrame.Params := [] |}) t1)
           (out ++ out ++ out)
    /\ Stack t1 = Stack t /\ jumpDepth t1 = jumpDepth t.
Proof.
  intros Hc Hs.
  destruct (toInstruction_index contract pc t)
    as (i & t1 & out & pcToI & Hi & Sa & _ & _ & -> & -> & Hagain).
  exists (default 0 (pcToI !! pc)), t1,
    (match pcToI !! pc with Some _ => [] | None => [MissingToInstruction] end).
  split; [done|].
  destruct Sa as (_ & HS & HC & HM & _ & _ & HJ).
  split; [|done].
  assert (Hmap : forall j, toSourceMapping contract j t1 = Returned None t1 []).
  { intros j. unfold toSourceMapping, bindM, get. by rewrite HM, Hs. }
  change (CaptureState pc Op.JUMP memory stack contract depth t)
    with (defer (fun t => t) (captureJump pc contract depth) t).
  unfold defer, captureJump.
  rewrite (bind_returned _ _ _ _ _ _ Hi).
  rewrite (bind_returned get _ t1 t1 t1 []) by reflexivity.
  assert (Hsrc : toSource contract pc t1
                 = Returned "N/A"%string t1
                     (match pcToI !! pc with
                      | Some _ => [] | None => [MissingToInstruction] end)).
  { unfold toSource. rewrite (bind_returned _ _ _ _ _ _ (Hagain contract pc eq_refl)).
    rewrite (bind_returned _ _ _ _ _ _ (Hmap _)).
    rewrite sourceOf_untraced by (by rewrite HC). cbn [app].
    by rewrite app_nil_r. }
  rewrite (bind_returned _ _ _ _ _ _ Hsrc).
  rewrite (bind_returned _ _ _ _ _ _ (Hagain contract pc eq_refl)).
  rewrite (bind_returned _ _ _ _ _ _ (Hmap _)).
  unfold modify. cbn [toLine app]. rewrite HJ.
  by rewrite !app_nil_r.
Qed.

(** X15.  A missing source mapping is tolerated at a JUMPDEST but not at a
    JUMP: when the contract has an artifact and the ordinal of the
    instruction lies at or past the end of its source map (or it has no
    source map), a JUMPDEST that is not a return only clears the pending
    jump, while a JUMP panics on the nil mapping. *)
Theorem missing_mapping_at_jump pc memory stack contract depth t artifact :
  contracts t !! key contract = Some artifact ->
  (forall i t1 out,
     toInstruction contract pc t = Returned i t1 out ->
     match sourceMaps t !! key contract with
     | None => True
     | Some srcMap => Z.of_nat (length srcMap) <= i <= max_int64
     end) ->
  (exists t1 out,
     CaptureState pc Op.JUMP memory stack contract depth t = Panicked t1 out
     /\ sameButIndex t t1)
  /\ (Lookup (Stack t) (wrap_uint64 (pc - 1)) = false ->
      exists t1 out,
        CaptureState pc Op.JUMPDEST memory stack contract depth t
        = Returned tt (set_LastJump None t1) out
        /\ sameButIndex t t1).
Proof.
  intros Hc Hno.
  destruct (toInstruction_index contract pc t)
    as (i & t1 & out & pcToI & Hi & Sa & _ & _ & -> & -> & Hagain).
  specialize (Hno _ _ _ Hi).
  assert (Hmap : toSourceMapping contract (default 0 (pcToI !! pc)) t1
                 = Returned None t1 []).
  { destruct Sa as (_ & _ & _ & HM & _).
    unfold toSourceMapping, bindM, get. rewrite HM.
    destruct (sourceMaps t !! key contract) as [srcMap|]; [|done].
    rewrite wrap_int64_id by (unfold min_int64, max_int64 in *; lia).
    by destruct (Z.leb_spec (Z.of_nat (length srcMap)) (default 0 (pcToI !! pc)));
      [|lia]. }
  split.
  - assert (Hsrc : exists o, toSource contract pc t1 = Panicked t1 o).
    { unfold toSource. rewrite (bind_returned _ _ _ _ _ _ (Hagain contract pc eq_refl)).
      rewrite (bind_returned _ _ _ _ _ _ Hmap).
      unfold sourceOf, bindM, get. destruct Sa as (_ & _ & HC & _).
      rewrite HC, Hc. cbn [orPanic panic]. by eexists. }
    destruct Hsrc as [o Hsrc].
    change (CaptureState pc Op.JUMP memory stack contract depth t)
      with (defer (fun t => t) (captureJump pc contract depth) t).
    unfold defer, captureJump.
    rewrite (bind_returned _ _ _ _ _ _ Hi).
    rewrite (bind_returned get _ t1 t1 t1 []) by reflexivity.
    unfold bindM at 1. rewrite Hsrc. by eexists _, _.
  - intros Hlk. rewrite CaptureState_JUMPDEST. unfold defer, captureJumpdest.
    rewrite (bind_returned get _ t t t []) by reflexivity. rewrite Hlk.
    rewrite (bind_returned _ _ _ _ _ _ Hi).
    rewrite (bind_returned _ _ _ _ _ _ Hmap). cbn [ret]. by eexists _, _.
Qed.

Lemma run_framesKept cbs t t' : run cbs t = Some t' -> Stack t `prefix_of` Stack t'.
Proof. intros H. apply (run_depthKept _ _ _ H). Qed.

(** X16.  A return is never forgotten: once a frame recording program
    counter [pc] is on the stack, then after any further callbacks a
    JUMPDEST at [pc + 1] is taken as a return: the callback returns, pushes
    nothing and takes the jump depth down by one, not below 0.  The frames
    of [CaptureStart] and of the call opcodes record program counter 0, so
    this holds of a JUMPDEST at program counter 1 as soon as one of them is
    on the stack. *)
Theorem entered_jump_returns frame t cbs t' memory stack contract depth :
  frame ∈ Stack t ->
  0 <= CallFrame.PC frame < 2 ^ 64 ->
  run cbs t = Some t' ->
  exists t'' out,
    CaptureState (CallFrame.PC frame + 1) Op.JUMPDEST memory stack contract depth t'
    = Returned tt t'' out
    /\ Stack t'' = Stack t'
    /\ jumpDepth t'' = Z.max 0 (wrap_int64 (jumpDepth t' - 1)).
Proof.
  intros Hin Hpc Hrun.
  assert (Hlk : Lookup (Stack t') (wrap_uint64 (CallFrame.PC frame + 1 - 1)) = true).
  { apply Lookup_spec. exists frame. split.
    - destruct (run_framesKept _ _ _ Hrun) as [more ->]. apply elem_of_app. by left.
    - unfold wrap_uint64. rewrite Z.mod_small; lia. }
  rewrite CaptureState_JUMPDEST. unfold defer.
  rewrite (captureJumpdest_return _ _ _ _ Hlk). cbv zeta.
  destruct (Z.ltb_spec (wrap_int64 (jumpDepth t' - 1)) 0);
    eexists _, _; (split; [reflexivity|]);
    cbn [Stack jumpDepth set_LastJump set_jumpDepth]; split; (done || lia).
Qed.

(** ** The tables *)

#[local] Instance tablesKept_refl : Reflexive tablesKept.
Proof. intros t. unfold tablesKept. by repeat split. Qed.

#[local] Instance tablesKept_trans : Transitive tablesKept.
Proof.
  intros a b c (?&?&?&?&?) (?&?&?&?&?). unfold tablesKept.
  repeat split; try congruence. by etrans.
Qed.

Lemma tablesKept_sameTables t t' :
  contracts t' = contracts t -> sourceMaps t' = sourceMaps t ->
  receivers t' = receivers t -> functionDefs t' = functionDefs t ->
  instructionMaps t' = instructionMaps t -> tablesKept t t'.
Proof. intros ? ? ? ? E. unfold tablesKept. rewrite E. by repeat split. Qed.

Lemma toInstruction_tablesKept contract pc :
  preserves tablesKept (toInstruction contract pc).
Proof.
  intros t. destruct (toInstruction_index contract pc t)
    as (i & t1 & out & pcToI & -> & Sa & Hm & Hins & _).
  cbn [final]. destruct Sa as (_ & _ & ? & ? & ? & ? & _).
  unfold tablesKept. repeat split; try done. rewrite Hins.
  destruct (instructionMaps t !! key contract) as [m|] eqn:E.
  - cbn [default] in Hm. subst pcToI. by rewrite insert_id.
  - by apply insert_subseteq.
Qed.

Ltac tables :=
  repeat first
    [ solve [apply preserves_ret; tc_solve]
    | solve [apply preserves_panic; tc_solve]
    | solve [apply preserves_get; tc_solve]
    | solve [apply preserves_print; tc_solve]
    | solve [apply preserves_orPanic; tc_solve]
    | solve [apply toInstruction_tablesKept]
    | solve [apply preserves_toSourceMapping; tc_solve]
    | solve [apply preserves_toPreviousSourceMapping; tc_solve]
    | solve [apply preserves_sourceOf; tc_solve]
    | solve [apply preserves_findFnDef; tc_solve]
    | solve [apply preserves_modify; intros ?; by apply tablesKept_sameTables]
    | apply preserves_bind; [tc_solve| |intros ?] ].

Lemma captureCall_tablesKept pc memory stack contract depth :
  preserves tablesKept (captureCall pc memory stack contract depth).
Proof. unfold captureCall, toPreviousSource, push. tables. Qed.

Lemma captureJump_tablesKept pc contract depth :
  preserves tablesKept (captureJump pc contract depth).
Proof. unfold captureJump, toSource. tables. Qed.

Lemma captureJumpdest_tablesKept pc stack contract :
  preserves tablesKept (captureJumpdest pc stack contract).
Proof.
  unfold captureJumpdest.
  apply preserves_bind; [tc_solve|tables|intros t0].
  destruct (Lookup _ _).
  - apply preserves_bind; [tc_solve|tables|intros _].
    apply preserves_bind; [tc_solve|tables|intros t1].
    destruct (_ <? _); tables.
  - apply preserves_bind; [tc_solve|tables|intros i].
    apply preserves_bind; [tc_solve|tables|intros [srcMapping|]]; [|tables].
    unfold captureEntry.
    apply preserves_bind; [tc_solve|tables|intros t1].
    destruct (isFunctionDefinition _ _ _); [|tables].
    destruct (LastJump t1); [|tables].
    destruct (MatchFunction _); [tables|]. unfold push. tables.
Qed.

Lemma CaptureState_tablesKept pc op memory stack contract depth :
  preserves tablesKept (CaptureState pc op memory stack contract depth).
Proof.
  unfold CaptureState. apply preserves_defer; [tc_solve| |].
  - intros t. unfold clearLastJump. destruct (_ || _); [reflexivity|].
    by apply tablesKept_sameTables.
  - repeat match goal with
           | |- preserves _ (if ?b then _ else _) => destruct b
           end;
      first [apply captureCall_tablesKept | apply captureJump_tablesKept
            | apply captureJumpdest_tablesKept | solve [tables] ].
Qed.

Lemma startLoop_tablesKept contract to input target fnDefs :
  preserves tablesKept (startLoop contract to input target fnDefs).
Proof.
  induction fnDefs as [|fnDef rest IH]; cbn [startLoop]; [tables|].
  destruct (negb _); [exact IH|].
  apply preserves_bind; [tc_solve|tables|intros frame].
  apply preserves_bind; [tc_solve|unfold push; tables|intros _; exact IH].
Qed.

Lemma callback_tablesKept cb : preserves tablesKept (callback cb).
Proof.
  destruct cb; cbn [callback].
  - unfold CaptureStart.
    apply preserves_bind; [tc_solve|tables|intros t0].
    destruct (contracts t0 !! _); [|tables].
    apply preserves_bind; [tc_solve|tables|intros sel].
    apply startLoop_tablesKept.
  - apply CaptureState_tablesKept.
  - intros t. reflexivity.
  - intros t. reflexivity.
Qed.

Lemma run_tablesKept cbs : forall t t', run cbs t = Some t' -> tablesKept t t'.
Proof.
  induction cbs as [|cb cbs IH]; intros t t'; cbn [run].
  - intros [= ->]. reflexivity.
  - pose proof (callback_tablesKept cb t) as Hcb.
    destruct (callback cb t) as [[] t1 out|t1 out]; [|discriminate].
    intros Hrun. etrans; [exact Hcb|by apply IH].
Qed.

(** X17.  The artifacts and the tables [NewTracer] derives from them are
    read-only: no callback, returning or panicking, changes [contracts],
    [sourceMaps], [receivers] or [functionDefs], and an instruction index
    once cached is never replaced or dropped.  So after any trace the
    source maps and the private function definitions are those of the
    artifacts, one entry for each artifact. *)
Theorem tables_are_read_only :
  (forall cb t, tablesKept t (final (callback cb t)))
  /\ (forall artifacts cbs t',
        run cbs (NewTracer artifacts) = Some t' ->
        contracts t' = artifacts
        /\ sourceMaps t'
           = (fun contract => ParseSourceMap (TruffleContract.SourceMap contract)
                                            (TruffleContract.SourceCode contract))
               <$> artifacts
        /\ functionDefs t'
           = (fun contract =>
                DiscoverPrivateFunctionDefinitions (TruffleContract.Ast contract))
               <$> artifacts
        /\ dom (sourceMaps t') = dom artifacts
        /\ dom (functionDefs t') = dom artifacts).
Proof.
  split; [intros cb t; apply callback_tablesKept|].
  intros artifacts cbs t' Hrun.
  destruct (run_tablesKept _ _ _ Hrun) as (HC & HS & _ & HF & _).
  cbn [contracts sourceMaps functionDefs NewTracer] in *.
  rewrite HC, HS, HF, !dom_fmap_L. by repeat split.
Qed.

(** ** Frames and artifacts *)

Section Artifacts.

Variable artifacts : gmap string TruffleContract.t.

#[local] Instance artifactsKept_refl : Reflexive (artifactsKept artifacts).
Proof. intros t. unfold artifactsKept. tauto. Qed.

#[local] Instance artifactsKept_trans : Transitive (artifactsKept artifacts).
Proof. intros a b c. unfold artifactsKept. tauto. Qed.

Lemma artifactsInv_sameButIndex t t' :
  sameButIndex t t' -> artifactsInv artifacts t -> artifactsInv artifacts t'.
Proof.
  intros (HL & HS & HC & _) (? & ? & ?). unfold artifactsInv.
  by rewrite HL, HS, HC.
Qed.

Lemma artifactsKept_index t v :
  artifactsKept artifacts t (set_instructionMaps v t).
Proof.
  intros H. eapply artifactsInv_sameButIndex; [apply sameButIndex_index|exact H].
Qed.

Lemma artifactsKept_push t frame :
  hasArtifact artifacts frame ->
  artifactsKept artifacts t (set_Stack (Push (Stack t) frame) t).
Proof.
  intros Hf (? & Hall & ?). unfold artifactsInv, Push. simpl.
  split; [done|]. split; [|done]. apply Forall_app. split; [done|].
  by constructor.
Qed.

Lemma artifactsKept_pending t frame :
  hasArtifact artifacts frame ->
  artifactsKept artifacts t (set_LastJump (Some frame) t).
Proof.
  intros Hf (? & ? & _). unfold artifactsInv. simpl.
  split; [done|]. split; [done|]. by intros f [= <-].
Qed.

Lemma artifactsKept_clear op t : artifactsKept artifacts t (clearLastJump op t).
Proof.
  unfold clearLastJump. destruct (_ || _); [reflexivity|].
  intros (? & ? & _). unfold artifactsInv. simpl. by repeat split.
Qed.

Lemma artifactsKept_jumpDepth t v : artifactsKept artifacts t (set_jumpDepth v t).
Proof. intros H. exact H. Qed.

Lemma captureCall_artifactsKept pc memory stack contract depth :
  is_Some (artifacts !! key contract) ->
  preserves (artifactsKept artifacts) (captureCall pc memory stack contract depth).
Proof.
  intros Hc. unfold captureCall, push. lookups artifactsKept_index.
  apply preserves_modify. intros t. by apply artifactsKept_push.
Qed.

Lemma captureJump_artifactsKept pc contract depth :
  is_Some (artifacts !! key contract) ->
  preserves (artifactsKept artifacts) (captureJump pc contract depth).
Proof.
  intros Hc. unfold captureJump. lookups artifactsKept_index.
  apply preserves_modify. intros t. by apply artifactsKept_pending.
Qed.

(** The entry branch pushes the pending frame, with its parameters. *)
Lemma captureEntry_final stack contract srcMapping t :
  let t' := final (captureEntry stack contract srcMapping t) in
  t' = t
  \/ exists params lastJump,
       LastJump t = Some lastJump
       /\ t' = set_jumpDepth (wrap_int64 (jumpDepth t + 1))
                 (set_Stack (Stack t ++ [withParams params lastJump])
                    (set_LastJump (Some (withParams params lastJump)) t)).
Proof.
  unfold captureEntry, bindM, get.
  destruct (isFunctionDefinition t contract srcMapping) as [fnDef|]; [|by left].
  destruct (LastJump t) as [lastJump|] eqn:E; [|by left].
  destruct (MatchFunction _); [by left|].
  destruct (entryParams _ _) as [params|]; [|by left].
  right. by exists params, lastJump.
Qed.

Lemma captureJumpdest_artifactsKept pc stack contract :
  preserves (artifactsKept artifacts) (captureJumpdest pc stack contract).
Proof.
  intros t Hinv.
  destruct (Lookup (Stack t) (wrap_uint64 (pc - 1))) eqn:Hlk.
  - rewrite (captureJumpdest_return _ _ _ _ Hlk). cbv zeta.
    by destruct (_ <? _).
  - unfold captureJumpdest. rewrite final_bind. cbn [get]. rewrite Hlk, final_bind.
    pose proof (toInstruction_sameButIndex contract pc t) as H1.
    destruct (toInstruction contract pc t) as [i t1 o1|t1 o1]; cbn [final] in H1;
      apply (artifactsInv_sameButIndex _ _ H1) in Hinv; [|done].
    rewrite final_bind.
    pose proof (toSourceMapping_final contract i t1) as H2.
    destruct (toSourceMapping contract i t1) as [[m|] t2 o2|t2 o2];
      cbn [final] in H2; subst t2; try done.
    destruct (captureEntry_final stack contract m t1)
      as [->|(params & lastJump & Hlj & ->)]; [done|].
    destruct Hinv as (HC & Hall & Hpend).
    assert (Hf : hasArtifact artifacts (withParams params lastJump))
      by (apply (Hpend lastJump Hlj)).
    unfold artifactsInv. simpl. split; [done|]. split.
    + apply Forall_app. split; [done|]. by constructor.
    + by intros f [= <-].
Qed.

Lemma CaptureState_artifactsKept pc op memory stack contract depth :
  is_Some (artifacts !! key contract) ->
  preserves (artifactsKept artifacts)
            (CaptureState pc op memory stack contract depth).
Proof.
  intros Hc. unfold CaptureState.
  apply preserves_defer; [tc_solve|apply artifactsKept_clear|].
  repeat match goal with
         | |- preserves _ (if ?b then _ else _) => destruct b
         end;
    first [by apply captureCall_artifactsKept | by apply captureJump_artifactsKept
          | apply captureJumpdest_artifactsKept
          | solve [lookups artifactsKept_index] ].
Qed.

Lemma startLoop_artifactsKept contract to input target fnDefs :
  is_Some (artifacts !! Go.ToLower (AddressString to)) ->
  preserves (artifactsKept artifacts) (startLoop contract to input target fnDefs).
Proof.
  intros Hto. induction fnDefs as [|fnDef rest IH]; cbn [startLoop];
    [lookups artifactsKept_index|].
  destruct (negb _); [exact IH|]. intros t.
  rewrite final_bind.
  destruct (startFrame contract to input fnDef) as [frame|] eqn:Hf;
    cbn [orPanic ret panic]; [|reflexivity].
  rewrite final_bind. unfold push at 1. cbn [modify].
  etrans; [|apply IH]. apply artifactsKept_push.
  destruct (startFrame_fields _ _ _ _ _ Hf) as (HC & _).
  unfold hasArtifact. by rewrite HC.
Qed.

Lemma CaptureStart_artifactsKept to input :
  preserves (artifactsKept artifacts) (CaptureStart to input).
Proof.
  intros t Hinv. unfold CaptureStart. rewrite final_bind. cbn [get].
  destruct (contracts t !! Go.ToLower (AddressString to)) as [contract|] eqn:Hc;
    [|done].
  rewrite final_bind. destruct (Go.slice input 0 4) as [sel|];
    cbn [orPanic ret panic]; [|done].
  apply startLoop_artifactsKept; [|done].
  destruct Hinv as (HC & _). rewrite <- HC, Hc. by eexists.
Qed.

Lemma run_artifactsKept cbs : forall t t',
  (forall cb contract, cb ∈ cbs -> runsIn cb = Some contract ->
                       is_Some (artifacts !! key contract)) ->
  run cbs t = Some t' -> artifactsInv artifacts t -> artifactsInv artifacts t'.
Proof.
  induction cbs as [|cb cbs IH]; intros t t' Hin; cbn [run].
  - by intros [= ->].
  - assert (Hcb : artifactsKept artifacts t (final (callback cb t))).
    { destruct cb as [to input|pc op memory stack contract depth| |];
        cbn [callback].
      - apply CaptureStart_artifactsKept.
      - apply CaptureState_artifactsKept.
        apply (Hin (OnState pc op memory stack contract depth));
          [apply elem_of_cons; by left|done].
      - reflexivity.
      - reflexivity. }
    destruct (callback cb t) as [[] t1 out|t1 out]; [|discriminate].
    intros Hrun Hinv. apply (IH t1 t'); [|done|by apply Hcb].
    intros cb' c Hcb' Hr. apply (Hin cb' c); [|done]. apply elem_of_cons. by right.
Qed.

End Artifacts.

(** X18.  In a trace on a new tracer whose per-instruction callbacks all
    run in contracts of the artifact set, every frame on the stack names a
    contract of the set; so the output loop of [main] finds an artifact for
    every frame and, when the depths leave room for two more tabs, prints
    a line for each of them without a panic. *)
Theorem traced_frames_have_artifacts artifacts cbs t' :
  (forall cb contract, cb ∈ cbs -> runsIn cb = Some contract ->
                       is_Some (artifacts !! key contract)) ->
  run cbs (NewTracer artifacts) = Some t' ->
  Forall (hasArtifact artifacts) (Stack t')
  /\ (Forall (fun frame => 0 <= CallFrame.Depth frame <= max_int64 - 2) (Stack t') ->
      exists lines,
        printFrames (contracts t') (Stack t') = (lines, true)
        /\ length lines = length (Stack t')).
Proof.
  intros Hin Hrun.
  assert (Hinv : artifactsInv artifacts (NewTracer artifacts)).
  { unfold artifactsInv. simpl. split; [done|]. split; [constructor|done]. }
  destruct (run_artifactsKept artifacts cbs _ _ Hin Hrun Hinv) as (HC & Hall & _).
  split; [done|]. intros Hdepth. rewrite HC.
  destruct (printFrames_all artifacts (Stack t')) as (lines & Hp & H2).
  { apply Forall_and. by split. }
  exists lines. split; [done|]. symmetry. by apply Forall2_length in H2.
Qed.

End Tracer.

(** ** The tracer on concrete inputs *)

Local Abbreviation demoCaptureState :=
  (CaptureState Demo.AddressString Demo.Receiver Demo.DiscoverFunctionDefinitions
                Demo.InstructionByBytecodePosition Demo.MatchFunction
                Demo.Memory Demo.MemoryGet).

Local Abbreviation demoCaptureStart :=
  (CaptureStart Demo.AddressString Demo.Receiver Demo.DiscoverFunctionDefinitions).

Local Abbreviation demoRun :=
  (run Demo.AddressString Demo.Receiver Demo.DiscoverFunctionDefinitions
       Demo.InstructionByBytecodePosition Demo.MatchFunction
       Demo.Memory Demo.MemoryGet).

Local Abbreviation demoNewTracer :=
  (NewTracer Demo.DiscoverPrivateFunctionDefinitions Demo.DiscoverReceivers
             Demo.ParseSourceMap).

Example demo_fresh : demoNewTracer Demo.artifacts = Demo.fresh.
Proof. vm_compute. reflexivity. Qed.

(** [set(7)] is traced with its argument decoded. *)
Example demo_start :
  Stack (final (demoCaptureStart 0xaa Demo.calldata Demo.fresh))
  = [ {| CallFrame.Contract := "0xaa";
         CallFrame.Instruction := 0;
         CallFrame.Source := "set";
         CallFrame.Line := 1;
         CallFrame.PC := 0;
         CallFrame.Depth := 0;
         CallFrame.Params := ["x = 7"%string] |} ].
Proof. vm_compute. reflexivity. Qed.

(** A JUMP, a JUMPI and the JUMPDEST of [_store]: the frame is pushed. *)
Example demo_entry :
  demoRun [OnState _ 1 Op.JUMP [] [5; 7; 9] Demo.vmContract 0] Demo.fresh
  = Some Demo.pending
  /\ demoRun [OnState _ 3 Op.JUMPDEST [] [5; 7; 9] Demo.vmContract 0] Demo.pending
     = Some Demo.entered.
Proof. split; vm_compute; reflexivity. Qed.

(** C1 at the JUMPDEST at program counter 2, with the frame of
    [_store] (entered from the JUMP at 1) on the stack. *)
Lemma jumpdest_return_witness :
  exists t' out,
    demoCaptureState 2 Op.JUMPDEST [] [5; 7; 9] Demo.vmContract 0 Demo.entered
    = Returned tt t' out
    /\ Stack t' = Stack Demo.entered
    /\ jumpDepth t' = Z.max 0 (wrap_int64 (jumpDepth Demo.entered - 1))
    /\ (min_int64 < jumpDepth Demo.entered <= max_int64 ->
        jumpDepth t' = Z.max 0 (jumpDepth Demo.entered - 1))
    /\ out = (if wrap_int64 (jumpDepth Demo.entered - 1) <? 0
              then [JumpDepthOutOfBounds] else [])
    /\ LastJump t' = None.
Proof.
  apply jumpdest_return. exists Demo.storeFrame.
  split; [apply elem_of_cons; left; reflexivity | reflexivity].
Defined.

(** C2 as claimed fails: at the JUMPDEST at program counter 3, with the
    JUMP at 1 pending, all the conditions of the claim hold, and on an
    evaluation stack of one word (the function has two parameters) the
    callback panics: nothing is pushed and the jump depth does not
    move. *)
Lemma jumpdest_entry_short_stack :
  Lookup (Stack Demo.pending) (wrap_uint64 (3 - 1)) = false
  /\ toInstruction Demo.AddressString Demo.InstructionByBytecodePosition
                   Demo.vmContract 3 Demo.pending
     = Returned 3 Demo.pending []
  /\ toSourceMapping Demo.AddressString Demo.vmContract 3 Demo.pending
     = Returned (Some (SourceMapping.mk 3 1 1)) Demo.pending []
  /\ isFunctionDefinition Demo.AddressString Demo.pending Demo.vmContract
                          (SourceMapping.mk 3 1 1)
     = Some Demo.store
  /\ spanStart Demo.store = Go.Itoa (SourceMapping.Start (SourceMapping.mk 3 1 1))
  /\ LastJump Demo.pending = Some Demo.jumpFrame
  /\ Demo.MatchFunction (CallFrame.Source Demo.jumpFrame) = false
  /\ demoCaptureState 3 Op.JUMPDEST [] [9] Demo.vmContract 0 Demo.pending
     = Panicked (set_LastJump None Demo.pending) [].
Proof. repeat split; vm_compute; reflexivity. Qed.

(** C2, as amended, at the JUMPDEST at program counter 3, with the JUMP
    at 1 pending and the evaluation stack 5, 7, 9. *)
Lemma jumpdest_entry_witness :
  exists frame t' out,
    demoCaptureState 3 Op.JUMPDEST [] [5; 7; 9] Demo.vmContract 0 Demo.pending
    = Returned tt t' out
    /\ Stack t' = Stack Demo.pending ++ [frame]
    /\ CallFrame.Params frame
       = filter (fun p => p <> EmptyString)
           (zip_with (DecodeStack Demo.AddressString)
              (AstNode.Parameters Demo.store)
              (arguments (length (AstNode.Parameters Demo.store)) [5; 7; 9]))
    /\ entryParams Demo.AddressString (AstNode.Parameters Demo.store) [5; 7; 9]
       = Some (CallFrame.Params frame)
    /\ CallFrame.Contract frame = CallFrame.Contract Demo.jumpFrame
    /\ CallFrame.Instruction frame = CallFrame.Instruction Demo.jumpFrame
    /\ CallFrame.Source frame = CallFrame.Source Demo.jumpFrame
    /\ CallFrame.Line frame = CallFrame.Line Demo.jumpFrame
    /\ CallFrame.PC frame = CallFrame.PC Demo.jumpFrame
    /\ CallFrame.Depth frame = CallFrame.Depth Demo.jumpFrame
    /\ jumpDepth t' = wrap_int64 (jumpDepth Demo.pending + 1)
    /\ (min_int64 <= jumpDepth Demo.pending < max_int64 ->
        jumpDepth t' = jumpDepth Demo.pending + 1)
    /\ LastJump t' = None.
Proof.
  apply (jumpdest_entry Demo.AddressString Demo.Receiver
           Demo.DiscoverFunctionDefinitions Demo.InstructionByBytecodePosition
           Demo.MatchFunction Demo.Memory Demo.MemoryGet
           3 [] [5; 7; 9] Demo.vmContract 0 Demo.pending
           3 Demo.pending [] Demo.pending []
           (SourceMapping.mk 3 1 1) Demo.store Demo.jumpFrame).
  - vm_compute. reflexivity.
  - vm_compute. reflexivity.
  - vm_compute. reflexivity.
  - vm_compute. reflexivity.
  - reflexivity.
  - reflexivity.
  - simpl. lia.
Defined.

(** C3 as claimed fails: a JUMPI is not a JUMP, and it leaves the jump
    recorded by the JUMP before it pending. *)
Lemma pending_jump_survives_jumpi :
  demoRun [OnState _ 1 Op.JUMP [] [5; 7; 9] Demo.vmContract 0] Demo.fresh
  = Some Demo.pending
  /\ Op.JUMPI <> Op.JUMP
  /\ LastJump (final (demoCaptureState 2 Op.JUMPI [] [5; 7; 9] Demo.vmContract 0
                                       Demo.pending))
     <> None.
Proof.
  split; [vm_compute; reflexivity|]. split; [discriminate|].
  vm_compute. discriminate.
Qed.

(** C3, as amended, at an ADD (opcode 1) after the JUMP. *)
Lemma pending_jump_cleared_witness :
  1 <> Op.JUMP /\ 1 <> Op.JUMPI
  /\ LastJump (final (demoCaptureState 2 1 [] [5; 7; 9] Demo.vmContract 0 Demo.pending))
     = None.
Proof.
  split; [discriminate|]. split; [discriminate|].
  apply pending_jump_cleared; discriminate.
Defined.

(** C4 at a CALL from the traced contract to itself with a selector
    (00000000) that no function definition has. *)
Lemma call_unresolved_panics_witness :
  demoCaptureState 3 Op.CALL Demo.callMemory Demo.callStack Demo.vmContract 1
                   Demo.fresh
  = Panicked (set_LastJump None Demo.fresh) [].
Proof.
  apply (call_unresolved_panics Demo.AddressString Demo.Receiver
           Demo.DiscoverFunctionDefinitions Demo.InstructionByBytecodePosition
           Demo.MatchFunction Demo.Memory Demo.MemoryGet
           Op.CALL 3 Demo.callMemory Demo.callStack Demo.vmContract 1 Demo.fresh
           0xaa 0 36 (Go.mkBytes (replicate 4 Byte.x00) (replicate 32 Byte.x00))).
  - apply elem_of_cons. left. reflexivity.
  - reflexivity.
  - reflexivity.
  - reflexivity.
  - vm_compute. reflexivity.
  - vm_compute. intros fnDef Hin.
    apply elem_of_cons in Hin as [->|Hin]; [discriminate|].
    apply elem_of_cons in Hin as [->|Hin]; [discriminate|].
    apply elem_of_nil in Hin. destruct Hin.
Defined.

(** The same CALL with the selector of [set] is traced. *)
Example demo_call :
  exists frame,
    demoCaptureState 3 Op.CALL
      (Go.elems Demo.calldata) Demo.callStack Demo.vmContract 1 Demo.fresh
    = Returned tt
        (set_LastJump None
           (set_Stack [frame]
              (set_instructionMaps (instructionMaps Demo.pending) Demo.fresh))) []
    /\ CallFrame.Params frame = ["x = 7"%string]
    /\ CallFrame.Depth frame = 1.
Proof. eexists. split; [vm_compute; reflexivity|]. split; reflexivity. Qed.

(** C5 at the empty input. *)
Lemma start_short_input_panics_witness :
  Go.len (Go.mkBytes [] []) < 4
  /\ demoCaptureStart 0xaa (Go.mkBytes [] []) Demo.fresh = Panicked Demo.fresh [].
Proof.
  split; [reflexivity|].
  apply (start_short_input_panics _ _ _ _ _ _ Demo.artifact);
    [vm_compute; reflexivity | reflexivity].
Defined.

(** C6 as claimed fails: the word of 32 bytes ff is -1 in two's
    complement, and an [int256] parameter holding it is printed as
    2^256 - 1, in buffer mode and in stack mode. *)
Lemma int256_printed_unsigned :
  twosComplement256 (Go.SetBytes (Demo.ones 32)) = -1
  /\ DecodeParam Demo.AddressString (Demo.intParam "x") 4
                 (Go.mkBytes (replicate 4 Byte.x00 ++ Demo.ones 32) [])
     = Some ("x = 115792089237316195423570985008687907853269984665640564039457584007913129639935"%string,
             32)
  /\ DecodeParam Demo.AddressString (Demo.intParam "x") 4
                 (Go.mkBytes (replicate 4 Byte.x00 ++ Demo.ones 32) [])
     <> Some (("x = " ++ Go.decimal (twosComplement256 (Go.SetBytes (Demo.ones 32))))%string,
              32)
  /\ DecodeStack Demo.AddressString (Demo.intParam "x") (2 ^ 256 - 1)
     <> ("x = " ++ Go.decimal (twosComplement256 (2 ^ 256 - 1)))%string.
Proof.
  split; [vm_compute; reflexivity|]. split; [vm_compute; reflexivity|].
  split; vm_compute; discriminate.
Qed.

(** C6, as amended, at that [int256] parameter. *)
Lemma integers_decoded_unsigned_witness :
  Go.HasPrefix (AstNode.TypeString (Demo.intParam "x")) "int" = true
  /\ DecodeStack Demo.AddressString (Demo.intParam "x") (2 ^ 256 - 1)
     = ("x = " ++ Go.decimal (2 ^ 256 - 1))%string.
Proof.
  split; [reflexivity|].
  apply (integers_decoded_unsigned Demo.AddressString (Demo.intParam "x")).
  left. reflexivity.
Defined.

(** C7 as claimed fails: ordinals 0 and 1 are within the source map of the
    contract, no earlier ordinal has a different pair, and the lookup
    panics instead of returning a mapping. *)
Lemma previous_mapping_runs_off :
  (length <$> sourceMaps Demo.fresh !! key Demo.AddressString Demo.vmContract)
  = Some 5%nat
  /\ toPreviousSourceMapping Demo.AddressString Demo.vmContract 0 Demo.fresh
     = Panicked Demo.fresh []
  /\ toPreviousSourceMapping Demo.AddressString Demo.vmContract 1 Demo.fresh
     = Panicked Demo.fresh [].
Proof. repeat split; vm_compute; reflexivity. Qed.

(** C7, as amended, at ordinal 4: ordinal 3 has the same pair, ordinal 2
    is the greatest with another one. *)
Lemma previous_mapping_witness :
  toPreviousSourceMapping Demo.AddressString Demo.vmContract (Z.of_nat 4) Demo.fresh
  = Returned (Some (SourceMapping.mk 0 1 1)) Demo.fresh [].
Proof.
  apply (previous_mapping Demo.AddressString Demo.vmContract Demo.fresh
           (Demo.ParseSourceMap "00033" "set_store().") 4 2
           (SourceMapping.mk 3 1 1) (SourceMapping.mk 0 1 1)).
  - vm_compute. reflexivity.
  - vm_compute. discriminate.
  - reflexivity.
  - lia.
  - reflexivity.
  - simpl. intros H. discriminate H.
  - intros k mk Hk. assert (k = 3%nat) as -> by lia.
    vm_compute. intros [= <-]. reflexivity.
Defined.

(** C8 at [_store(uint256 val, int256 delta)] on the stack 5, 7, 9. *)
Lemma stack_parameters_in_source_order_witness :
  (forall i, (i < length (AstNode.Parameters Demo.store))%nat ->
     Back [5; 7; 9] i
     = arguments (length (AstNode.Parameters Demo.store)) [5; 7; 9]
       !! (length (AstNode.Parameters Demo.store) - 1 - i)%nat)
  /\ entryParams Demo.AddressString (AstNode.Parameters Demo.store) [5; 7; 9]
     = Some (filter (fun p => p <> EmptyString)
               (zip_with (DecodeStack Demo.AddressString)
                  (AstNode.Parameters Demo.store)
                  (arguments (length (AstNode.Parameters Demo.store)) [5; 7; 9]))).
Proof.
  apply (stack_parameters_in_source_order Demo.AddressString
           (AstNode.Parameters Demo.store) [5; 7; 9]).
  simpl. lia.
Defined.

(** The strings of that entry. *)
Example demo_entry_params :
  entryParams Demo.AddressString (AstNode.Parameters Demo.store) [5; 7; 9]
  = Some ["val = 7"%string; "delta = 9"%string].
Proof. vm_compute. reflexivity. Qed.

(** C9 at the tracer that has entered [_store]: a STOP leaves its frame,
    and so does the rest of a trace. *)
Lemma frames_never_removed_witness :
  Op.STOP ∈ [Op.RETURN; Op.REVERT; Op.STOP; Op.SELFDESTRUCT; InvalidOpcode]
  /\ Stack (final (demoCaptureState 4 Op.STOP [] [] Demo.vmContract 0 Demo.entered))
     = Stack Demo.entered
  /\ Stack Demo.entered
     `prefix_of`
     Stack (final (demoCaptureState 3 Op.CALL (Go.elems Demo.calldata)
                                    Demo.callStack Demo.vmContract 1 Demo.entered)).
Proof.
  assert (Hin : Op.STOP ∈ [Op.RETURN; Op.REVERT; Op.STOP; Op.SELFDESTRUCT;
                            InvalidOpcode]).
  { apply elem_of_cons. right. apply elem_of_cons. right.
    apply elem_of_cons. left. reflexivity. }
  destruct (frames_never_removed Demo.AddressString Demo.Receiver
              Demo.DiscoverFunctionDefinitions Demo.InstructionByBytecodePosition
              Demo.MatchFunction Demo.Memory Demo.MemoryGet Demo.entered)
    as (_ & Hstate & _ & _ & Hhalt & _).
  split; [exact Hin|]. split; [apply Hhalt; exact Hin | apply Hstate].
Defined.

(** C10 on a trace that enters [_store] and then meets the JUMPDEST at 2
    twice: the second return would take the depth below 0. *)
Lemma jumpDepth_never_negative_witness :
  demoRun [OnState _ 1 Op.JUMP [] [5; 7; 9] Demo.vmContract 0;
           OnState _ 3 Op.JUMPDEST [] [5; 7; 9] Demo.vmContract 0;
           OnState _ 2 Op.JUMPDEST [] [5; 7; 9] Demo.vmContract 0;
           OnState _ 2 Op.JUMPDEST [] [5; 7; 9] Demo.vmContract 0]
          (demoNewTracer Demo.artifacts)
  = Some (set_jumpDepth 0 Demo.entered)
  /\ fitsInt (set_jumpDepth 0 Demo.entered)
  /\ 0 <= jumpDepth (set_jumpDepth 0 Demo.entered)
       <= Z.of_nat (length (Stack (set_jumpDepth 0 Demo.entered))).
Proof.
  assert (Hrun : demoRun
            [OnState _ 1 Op.JUMP [] [5; 7; 9] Demo.vmContract 0;
             OnState _ 3 Op.JUMPDEST [] [5; 7; 9] Demo.vmContract 0;
             OnState _ 2 Op.JUMPDEST [] [5; 7; 9] Demo.vmContract 0;
             OnState _ 2 Op.JUMPDEST [] [5; 7; 9] Demo.vmContract 0]
            (demoNewTracer Demo.artifacts)
          = Some (set_jumpDepth 0 Demo.entered)) by (vm_compute; reflexivity).
  assert (Hfit : fitsInt (set_jumpDepth 0 Demo.entered))
    by (vm_compute; discriminate).
  split; [exact Hrun|]. split; [exact Hfit|].
  exact (proj1 (jumpDepth_never_negative Demo.AddressString Demo.Receiver
                  Demo.DiscoverFunctionDefinitions
                  Demo.DiscoverPrivateFunctionDefinitions Demo.DiscoverReceivers
                  Demo.ParseSourceMap Demo.InstructionByBytecodePosition
                  Demo.MatchFunction Demo.Memory Demo.MemoryGet)
               Demo.artifacts _ _ Hrun Hfit).
Defined.

(** ** The further properties on concrete inputs *)

(** X4 at ordinal 3 of the traced contract. *)
Lemma toSourceMapping_in_bounds_witness :
  toSourceMapping Demo.AddressString Demo.vmContract 3 Demo.fresh
  = Returned (srcMap ← sourceMaps Demo.fresh
                         !! key Demo.AddressString Demo.vmContract;
              srcMap !! Z.to_nat 3)
             Demo.fresh [].
Proof.
  apply (toSourceMapping_in_bounds Demo.AddressString Demo.vmContract 3 Demo.fresh).
  unfold max_int64. lia.
Defined.

(** X5 at ordinal 7, past the five mappings of the traced contract. *)
Lemma toPreviousSourceMapping_nil_witness :
  toPreviousSourceMapping Demo.AddressString Demo.vmContract 7 Demo.fresh
  = Returned None Demo.fresh [].
Proof.
  apply (toPreviousSourceMapping_nil Demo.AddressString Demo.vmContract 7 Demo.fresh).
  vm_compute. split; discriminate.
Defined.

(** X6 at the argument word of [set(7)]. *)
Lemma buffer_mode_agrees_with_stack_mode_witness :
  DecodeParam Demo.AddressString (Demo.uintParam "x") 4 Demo.calldata
  = Some (DecodeStack Demo.AddressString (Demo.uintParam "x")
            (Go.SetBytes (replicate 31 Byte.x00 ++ [Byte.x07])), 32)
  /\ replicate 31 Byte.x00 ++ [Byte.x07] = wordAt Demo.calldata 4.
Proof.
  apply (buffer_mode_agrees_with_stack_mode Demo.AddressString (Demo.uintParam "x")
           4 Demo.calldata (Go.mkBytes (replicate 31 Byte.x00 ++ [Byte.x07]) [])).
  vm_compute. reflexivity.
Defined.

(** X7 at a [uint256] parameter and the empty input. *)
Lemma DecodeParam_panics_iff_witness :
  (DecodeParam Demo.AddressString (Demo.uintParam "x") 4 (Go.mkBytes [] []) = None
   <-> supported (AstNode.TypeString (Demo.uintParam "x")) = true
       /\ Go.cap (Go.mkBytes [] []) < 4 + 32)
  /\ (supported (AstNode.TypeString (Demo.uintParam "x")) = false ->
      DecodeParam Demo.AddressString (Demo.uintParam "x") 4 (Go.mkBytes [] [])
      = Some (EmptyString, 32)).
Proof.
  apply (DecodeParam_panics_iff Demo.AddressString (Demo.uintParam "x") 4
           (Go.mkBytes [] [])); unfold max_int64; lia.
Defined.

(** X8 at the parameters of [_store] and an input of two words after the
    selector. *)
Lemma decodeParams_reads_consecutive_words_witness :
  decodeParams Demo.AddressString (AstNode.Parameters Demo.store) 4
               (Go.mkBytes (replicate 67 Byte.x00 ++ [Byte.x09]) []) []
  = Some (filter (fun p => p <> EmptyString)
            (imap (fun k node =>
                     DecodeStack Demo.AddressString node
                       (Go.SetBytes
                          (wordAt (Go.mkBytes (replicate 67 Byte.x00 ++ [Byte.x09]) [])
                                  (4 + 32 * Z.of_nat k))))
                  (AstNode.Parameters Demo.store))).
Proof.
  apply (decodeParams_reads_consecutive_words Demo.AddressString
           (AstNode.Parameters Demo.store) 4
           (Go.mkBytes (replicate 67 Byte.x00 ++ [Byte.x09]) [])).
  - lia.
  - vm_compute. discriminate.
  - vm_compute. discriminate.
Defined.

(** The strings of that input. *)
Example demo_decodeParams :
  decodeParams Demo.AddressString (AstNode.Parameters Demo.store) 4
               (Go.mkBytes (replicate 67 Byte.x00 ++ [Byte.x09]) []) []
  = Some ["val = 0"%string; "delta = 9"%string].
Proof. vm_compute. reflexivity. Qed.

(** X10 at the traced contract and a selector (00000000) it does not
    have. *)
Lemma CaptureStart_unresolved_witness :
  demoCaptureStart 0xaa (Go.mkBytes (replicate 4 Byte.x00) []) Demo.fresh
  = Returned tt Demo.fresh [].
Proof.
  apply CaptureStart_unresolved.
  vm_compute. exists (Go.mkBytes (replicate 4 Byte.x00) []).
  split; [reflexivity|]. intros fnDef Hin.
  apply elem_of_cons in Hin as [->|Hin]; [discriminate|].
  apply elem_of_cons in Hin as [->|Hin]; [discriminate|].
  apply elem_of_nil in Hin. destruct Hin.
Defined.

(** X11 at [set(7)]. *)
Lemma CaptureStart_pushes_every_match_witness :
  exists frames,
    set_Stack [Demo.setFrame] Demo.fresh
    = set_Stack (Stack Demo.fresh ++ frames) Demo.fresh
    /\ @nil LogLine = []
    /\ Forall (fun frame =>
                 CallFrame.Contract frame = Go.ToLower (Demo.AddressString 0xaa)
                 /\ CallFrame.Instruction frame = 0
                 /\ CallFrame.Depth frame = 0
                 /\ CallFrame.PC frame = 0) frames
    /\ match contracts Demo.fresh !! Go.ToLower (Demo.AddressString 0xaa) with
       | None => frames = []
       | Some contract =>
           exists sel,
             Go.slice Demo.calldata 0 4 = Some sel
             /\ Forall2 (fun fnDef frame =>
                           startFrame Demo.AddressString contract 0xaa Demo.calldata
                                      fnDef = Some frame)
                        (filter (fun d => Demo.Receiver d = Go.hex (Go.elems sel))
                           (Demo.DiscoverFunctionDefinitions
                              (TruffleContract.Ast contract)))
                        frames
       end.
Proof.
  apply CaptureStart_pushes_every_match.
  vm_compute. reflexivity.
Defined.


(** X9 on a source of three lines, at the start of the third. *)
Lemma lineLoop_counts_newlines_witness :
  0 <= 4 <= Z.of_nat (String.length Demo.threeLines)
  /\ (exists c, lineLoop Demo.threeLines 0 4 1 1
                = Some (1 + Z.of_nat (newlinesBefore Demo.threeLines (Z.to_nat 4)), c))
  /\ newlinesBefore Demo.threeLines (Z.to_nat 4) = 2%nat
  /\ lineLoop Demo.threeLines 0 6 1 1 = None.
Proof.
  assert (H : 0 <= 4 <= Z.of_nat (String.length Demo.threeLines))
    by (vm_compute; split; discriminate).
  split; [exact H|]. split.
  - apply (proj1 (lineLoop_counts_newlines Demo.threeLines 4) H).
  - split; vm_compute; reflexivity.
Defined.

(** X13 at the frame of [_store] followed by a frame of a contract with no
    artifact. *)
Lemma printFrames_needs_artifacts_witness :
  exists lines,
    printFrames Demo.artifacts [Demo.storeFrame] = (lines, true)
    /\ Forall2 (fun frame line => frameLine Demo.artifacts frame = Some line)
               [Demo.storeFrame] lines
    /\ (Demo.artifacts !! CallFrame.Contract Demo.strayFrame = None ->
        printFrames Demo.artifacts ([Demo.storeFrame] ++ Demo.strayFrame :: [])
        = (lines, false)).
Proof.
  apply (printFrames_needs_artifacts Demo.artifacts [Demo.storeFrame]
           Demo.strayFrame []).
  constructor; [|constructor]. split.
  - exists Demo.artifact. vm_compute. reflexivity.
  - vm_compute. split; discriminate.
Defined.

(** X14 at a JUMP in the contract with no artifact. *)
Lemma jump_in_untraced_contract_witness :
  exists i t1 out,
    toInstruction Demo.AddressString Demo.InstructionByBytecodePosition
                  Demo.otherContract 6 Demo.fresh
    = Returned i t1 out
    /\ demoCaptureState 6 Op.JUMP [] [] Demo.otherContract 0 Demo.fresh
       = Returned tt
           (set_LastJump
              (Some {| CallFrame.Contract := key Demo.AddressString Demo.otherContract;
                       CallFrame.Instruction := i;
                       CallFrame.Source := "N/A";
                       CallFrame.Line := 0;
                       CallFrame.PC := 6;
                       CallFrame.Depth := frameDepth 0 (jumpDepth Demo.fresh);
                       CallFrame.Params := [] |}) t1)
           (out ++ out ++ out)
    /\ Stack t1 = Stack Demo.fresh /\ jumpDepth t1 = jumpDepth Demo.fresh.
Proof.
  apply (jump_in_untraced_contract Demo.AddressString Demo.Receiver
           Demo.DiscoverFunctionDefinitions Demo.InstructionByBytecodePosition
           Demo.MatchFunction Demo.Memory Demo.MemoryGet
           6 [] [] Demo.otherContract 0 Demo.fresh);
    vm_compute; reflexivity.
Defined.

(** X15 at program counter 6 of code longer than the source map. *)
Lemma missing_mapping_at_jump_witness :
  (exists t1 out,
     demoCaptureState 6 Op.JUMP [] [] Demo.longContract 0 Demo.fresh
     = Panicked t1 out
     /\ sameButIndex Demo.fresh t1)
  /\ (Lookup (Stack Demo.fresh) (wrap_uint64 (6 - 1)) = false ->
      exists t1 out,
        demoCaptureState 6 Op.JUMPDEST [] [] Demo.longContract 0 Demo.fresh
        = Returned tt (set_LastJump None t1) out
        /\ sameButIndex Demo.fresh t1).
Proof.
  apply (missing_mapping_at_jump Demo.AddressString Demo.Receiver
           Demo.DiscoverFunctionDefinitions Demo.InstructionByBytecodePosition
           Demo.MatchFunction Demo.Memory Demo.MemoryGet
           6 [] [] Demo.longContract 0 Demo.fresh Demo.artifact).
  - vm_compute. reflexivity.
  - intros i t1 out H. vm_compute in H. injection H as <- _ _.
    vm_compute. split; discriminate.
Defined.

(** X16 at the frame of [_store], entered from the JUMP at 1, after a
    STOP. *)
Lemma entered_jump_returns_witness :
  exists t'' out,
    demoCaptureState (CallFrame.PC Demo.storeFrame + 1) Op.JUMPDEST [] []
                     Demo.vmContract 0 Demo.entered
    = Returned tt t'' out
    /\ Stack t'' = Stack Demo.entered
    /\ jumpDepth t'' = Z.max 0 (wrap_int64 (jumpDepth Demo.entered - 1)).
Proof.
  apply (entered_jump_returns Demo.AddressString Demo.Receiver
           Demo.DiscoverFunctionDefinitions Demo.InstructionByBytecodePosition
           Demo.MatchFunction Demo.Memory Demo.MemoryGet
           Demo.storeFrame Demo.entered
           [OnState _ 4 Op.STOP [] [] Demo.vmContract 0] Demo.entered
           [] [] Demo.vmContract 0).
  - apply elem_of_cons. left. reflexivity.
  - vm_compute. split; [discriminate|reflexivity].
  - vm_compute. reflexivity.
Defined.

(** X18 on the trace that enters [_store]. *)
Lemma traced_frames_have_artifacts_witness :
  Forall (hasArtifact Demo.artifacts) (Stack Demo.entered)
  /\ (Forall (fun frame => 0 <= CallFrame.Depth frame <= max_int64 - 2)
             (Stack Demo.entered) ->
      exists lines,
        printFrames (contracts Demo.entered) (Stack Demo.entered) = (lines, true)
        /\ length lines = length (Stack Demo.entered)).
Proof.
  apply (traced_frames_have_artifacts Demo.AddressString Demo.Receiver
           Demo.DiscoverFunctionDefinitions Demo.DiscoverPrivateFunctionDefinitions
           Demo.DiscoverReceivers Demo.ParseSourceMap
           Demo.InstructionByBytecodePosition Demo.MatchFunction
           Demo.Memory Demo.MemoryGet Demo.artifacts
           [OnState _ 1 Op.JUMP [] [5; 7; 9] Demo.vmContract 0;
            OnState _ 3 Op.JUMPDEST [] [5; 7; 9] Demo.vmContract 0]
           Demo.entered).
  - intros cb contract Hin Hruns.
    apply elem_of_cons in Hin as [->|Hin];
      [injection Hruns as <-; exists Demo.artifact; vm_compute; reflexivity|].
    apply elem_of_cons in Hin as [->|Hin];
      [injection Hruns as <-; exists Demo.artifact; vm_compute; reflexivity|].
    apply elem_of_nil in Hin. destruct Hin.
  - vm_compute. reflexivity.
Defined.

(** X19 at ordinal 1, whose only earlier mapping has the same pair. *)
Lemma previous_mapping_missing_witness :
  toPreviousSourceMapping Demo.AddressString Demo.vmContract (Z.of_nat 1) Demo.fresh
  = Panicked Demo.fresh [].
Proof.
  apply (previous_mapping_missing Demo.AddressString Demo.vmContract Demo.fresh
           (Demo.ParseSourceMap "00033" "set_store().") 1 (SourceMapping.mk 0 1 1)).
  - vm_compute. reflexivity.
  - vm_compute. discriminate.
  - reflexivity.
  - intros k mk Hk. assert (k = 0%nat) as -> by lia.
    vm_compute. intros [= <-]. reflexivity.
Defined.
